(** * Waverider analysis engine

    A shallow embedding of [backend/src/services/analysisEngine.js] (the
    class [AnalysisEngine]; [backend/src/index.ts] carries the same code with
    type annotations) and the properties of it that the specification states,
    then of the handlers that call the engine
    ([backend/src/controllers/analysis.ts]) with the error handler behind
    them, and further properties of both.

    The engine computes with JavaScript numbers.  The embedding is written
    once, over an interface [JSNumber] of the operations the code applies to
    numbers, and is read at two instances:

    - [binary64]: IEEE-754 double precision, the arithmetic the code runs
      on (Rocq's primitive floats).  It computes, so concrete inputs are
      evaluated on it.
    - [exact]: the real numbers, the arithmetic in which the formulas of the
      specification are written.  Properties that quantify over all buffers
      and depend on order and field laws are proved on it.

    Calls to the logger are not modelled: they do not change what the
    engine returns.  (One handler reads [profiles.length] for its log
    entry, which can throw; that read is modelled.) *)

From Stdlib Require Import List Sorted ZArith Bool String Ascii Lia.
From Stdlib Require Import Floats.
From Stdlib Require Import Reals Lra Zfloor.
Import ListNotations.

Set Implicit Arguments.
Set Warnings "-inexact-float".

(** ** JavaScript numbers *)

(** The result of the abstract operation ToIntegerOrInfinity. *)
Inductive IntegerOrInfinity : Type :=
| Int (z : Z)
| PosInfinity
| NegInfinity.

(** The operations of JavaScript numbers that the engine uses. *)
Class JSNumber (num : Type) : Type := {
  of_Z : Z -> num;                     (* an integer literal, a length, a counter *)
  js_add : num -> num -> num;
  js_sub : num -> num -> num;
  js_mul : num -> num -> num;
  js_div : num -> num -> num;
  js_ltb : num -> num -> bool;         (* a < b *)
  js_leb : num -> num -> bool;         (* a <= b *)
  truthy : num -> bool;                (* ToBoolean *)
  ToIntegerOrInfinity : num -> IntegerOrInfinity;
  fround : num -> num;                 (* a store into a Float32Array *)
  Math_abs : num -> num;
  Math_sqrt : num -> num;
  Math_floor : num -> num;
  Math_log10 : num -> num;
  Math_cos : num -> num;
  Math_pow_2 : num -> num;             (* Math.pow(x, 2) *)
  Math_max : num -> num -> num;
  Math_min : num -> num -> num;
  Math_PI : num;
  NEGATIVE_INFINITY : num;             (* Math.max() of no argument *)
  NaN : num                            (* arithmetic on undefined *)
}.

Declare Scope js_scope.
Delimit Scope js_scope with js.
Infix "+" := js_add : js_scope.
Infix "-" := js_sub : js_scope.
Infix "*" := js_mul : js_scope.
Infix "/" := js_div : js_scope.
Infix "<?" := js_ltb : js_scope.
Notation "a >? b" := (js_ltb b a) : js_scope.
Notation "a >=? b" := (js_leb b a) : js_scope.

(** ** Exceptions, divergence and the engine's effects *)

Record JSError : Type := { name : string; message : string }.

(** [new Error(msg)]. *)
Definition new_Error (msg : string) : JSError :=
  {| name := "Error"; message := msg |}.

(** How a call ends: it returns, throws, or never returns. *)
Inductive Outcome (A : Type) : Type :=
| Returns (a : A)
| Throws (e : JSError)
| Diverges.

Arguments Throws {A} e.
Arguments Diverges {A}.

(** What the engine reads from outside: the random identifiers [uuidv4]
    draws (the n-th draw is [uuids n]) and the clock. *)
Record World : Type := {
  uuids : nat -> string;
  drawn : nat;
  clock : string
}.

Definition M (A : Type) : Type := World -> Outcome (A * World).

Definition ret {A} (a : A) : M A := fun w => Returns (a, w).

Definition bind {A B} (m : M A) (k : A -> M B) : M B :=
  fun w =>
    match m w with
    | Returns (a, w') => k a w'
    | Throws e => Throws e
    | Diverges => Diverges
    end.

Definition lift {A} (o : Outcome A) : M A :=
  fun w =>
    match o with
    | Returns a => Returns (a, w)
    | Throws e => Throws e
    | Diverges => Diverges
    end.

Definition throw {A} (e : JSError) : M A := fun _ => Throws e.

Definition diverge {A} : M A := fun _ => Diverges.

(** [try { body } catch (error) { handler }]. *)
Definition try_catch {A} (body : M A) (handler : JSError -> M A) : M A :=
  fun w =>
    match body w with
    | Throws e => handler e w
    | r => r
    end.

(** The world after one draw of an identifier. *)
Definition after_draw (w : World) : World :=
  {| uuids := uuids w; drawn := S (drawn w); clock := clock w |}.

(** [uuidv4()]. *)
Definition uuidv4 : M string :=
  fun w => Returns (uuids w (drawn w), after_draw w).

(** [new Date().toISOString()]. *)
Definition Date_toISOString : M string := fun w => Returns (clock w, w).

Declare Scope engine_scope.
Delimit Scope engine_scope with engine.
Notation "x <- m ;; k" := (bind m (fun x => k))
  (at level 61, m at next level, right associativity) : engine_scope.

(** [bind] on outcomes, for the loops that touch no state. *)
Definition obind {A B} (o : Outcome A) (k : A -> Outcome B) : Outcome B :=
  match o with
  | Returns a => k a
  | Throws e => Throws e
  | Diverges => Diverges
  end.

(** ** Arrays *)

(** The index [slice] starts or ends at, from its argument
    (TypedArray.prototype.slice, steps 4 to 12). *)
Definition relativeIndex (len : Z) (r : IntegerOrInfinity) : Z :=
  match r with
  | NegInfinity => 0
  | PosInfinity => len
  | Int z => if (z <? 0)%Z then Z.max (len + z) 0 else Z.min z len
  end.

(** ** The data model of [shared/types] and [backend/src/types.ts] *)

Inductive ProfileType : Type := quiet | intensity | transition | custom.

Inductive Direction : Type := increasing | decreasing.

Section Engine.

Context {num : Type} {N : JSNumber num}.

Local Open Scope js_scope.

(** A decimal literal n/d, as in 0.1: the number nearest to the quotient. *)
Definition decimal (n d : Z) : num := of_Z n / of_Z d.

(** [array.slice(start, end)]. *)
Definition slice {A} (a : list A) (start end_ : num) : list A :=
  let len := Z.of_nat (List.length a) in
  let k := relativeIndex len (ToIntegerOrInfinity start) in
  let final := relativeIndex len (ToIntegerOrInfinity end_) in
  firstn (Z.to_nat (final - k)) (skipn (Z.to_nat k) a).

(** [array.length] as a number. *)
Definition length_of {A} (a : list A) : num := of_Z (Z.of_nat (List.length a)).

(** [x || d]: [d] when [x] is undefined, 0 or NaN. *)
Definition or_default (x : option num) (d : num) : num :=
  match x with
  | Some v => if truthy v then v else d
  | None => d
  end.

(** A destructuring default [{ x = d } = options]: [d] when [x] is undefined. *)
Definition default_to {A} (x : option A) (d : A) : A :=
  match x with
  | Some v => v
  | None => d
  end.

(** [ProfileParameters]: an open bag of values; the engine reads these. *)
Record ProfileParameters : Type := {
  windowSize : option num;
  maxAmplitude : option num;
  minAmplitude : option num;
  sensitivity : option num
}.

Record AudioProfile : Type := {
  profile_id : string;
  type_ : ProfileType;
  parameters : ProfileParameters
}.

(** The [options] object of the engine's methods. *)
Record Options : Type := {
  opt_windowSize : option num;
  fftSize : option num;
  sampleRate : option num;
  threshold : option num;
  minDuration : option num;
  profiles : option (list AudioProfile)
}.

(** [{}]. *)
Definition no_options : Options :=
  {| opt_windowSize := None; fftSize := None; sampleRate := None;
     threshold := None; minDuration := None; profiles := None |}.

(** The object [analyzeAmplitude] returns. *)
Record AmplitudeAnalysis : Type := {
  rms : num;
  peak : num;
  average : num;
  dynamicRange : num;
  crestFactor : num;
  zeroCrossings : Z
}.

Record AudioRegion : Type := {
  region_id : string;
  start : num;
  end_ : num;
  profile : string;
  confidence : num;
  data : AmplitudeAnalysis
}.

(** An entry of [quietSections] or [loudSections]. *)
Record SectionEntry : Type := {
  section_start : num;
  section_end : num;
  section_rms : num
}.

Record TransitionEntry : Type := {
  time : num;
  change : num;
  direction : Direction
}.

Record Patterns : Type := {
  quietSections : list SectionEntry;
  loudSections : list SectionEntry;
  transitions : list TransitionEntry;
  repetitivePatterns : list unit
}.

Record FrequencyEntry : Type := {
  frequency : num;
  magnitude : num
}.

Record FrequencyBands : Type := {
  bass : num;
  mid : num;
  treble : num
}.

Record SpectralAnalysis : Type := {
  spectralCentroid : num;
  spectralRolloff : num;
  spectralFlux : num;
  dominantFrequencies : list FrequencyEntry;
  frequencyBands : FrequencyBands
}.

Record Analysis : Type := {
  amplitude : AmplitudeAnalysis;
  spectral : SpectralAnalysis;
  patterns : Patterns;
  regions : list AudioRegion
}.

Record AudioAnalysis : Type := {
  analysis_id : string;
  timestamp : string;
  sampleCount : Z;
  analysis : Analysis
}.

(** ** analyzeAmplitude *)

(** The variables of the loop of [analyzeAmplitude]. *)
Record AmplitudeSums : Type := {
  acc_sum : num;
  acc_sumSquares : num;
  acc_peak : num;
  acc_zeroCrossings : Z
}.

(** The loop over [audioData]; [prev] is [audioData[i - 1]], absent at i = 0. *)
Fixpoint analyzeAmplitude_loop (prev : option num) (rest : list num)
  (st : AmplitudeSums) : AmplitudeSums :=
  match rest with
  | [] => st
  | x :: rest' =>
    let sample := Math_abs x in
    analyzeAmplitude_loop (Some x) rest'
      {| acc_sum := acc_sum st + sample;
         acc_sumSquares := acc_sumSquares st + sample * sample;
         acc_peak := Math_max (acc_peak st) sample;
         acc_zeroCrossings :=
           match prev with
           | Some p =>
             if xorb (x >=? of_Z 0) (p >=? of_Z 0)
             then (acc_zeroCrossings st + 1)%Z else acc_zeroCrossings st
           | None => acc_zeroCrossings st
           end |}
  end.

Definition analyzeAmplitude (audioData : list num) (options : Options)
  : AmplitudeAnalysis :=
  let st := analyzeAmplitude_loop None audioData
              {| acc_sum := of_Z 0; acc_sumSquares := of_Z 0;
                 acc_peak := of_Z 0; acc_zeroCrossings := 0 |} in
  let rms := Math_sqrt (acc_sumSquares st / length_of audioData) in
  let peak := acc_peak st in
  {| average := acc_sum st / length_of audioData;
     rms := rms;
     peak := peak;
     dynamicRange :=
       if peak >? of_Z 0 then of_Z 20 * Math_log10 (peak / rms) else of_Z 0;
     crestFactor := if peak >? of_Z 0 then peak / rms else of_Z 0;
     zeroCrossings := acc_zeroCrossings st |}.

(** ** Helper methods *)

Definition calculateRMS (data : list num) : num :=
  Math_sqrt (fold_left (fun sumSquares x => sumSquares + x * x) data (of_Z 0)
             / length_of data).

Definition calculateVariance (data : list num) : num :=
  let mean := fold_left (fun sum val => sum + val) data (of_Z 0)
              / length_of data in
  fold_left (fun sum val => sum + Math_pow_2 (val - mean)) data (of_Z 0)
  / length_of data.

Definition detectTransition (window : list num) (parameters : ProfileParameters)
  : bool :=
  calculateVariance window >? or_default (sensitivity parameters) (decimal 5 10).

Definition calculateConfidence (analysis : AmplitudeAnalysis)
  (profile : AudioProfile) : num :=
  let confidence :=
    match type_ profile with
    | quiet =>
      Math_max (of_Z 0)
        (of_Z 1 - rms analysis
                  / or_default (maxAmplitude (parameters profile)) (decimal 1 10))
    | intensity =>
      Math_min (of_Z 1)
        (rms analysis
         / or_default (minAmplitude (parameters profile)) (decimal 7 10))
    | _ => decimal 5 10
    end in
  Math_max (of_Z 0) (Math_min (of_Z 1) confidence).

(** ** applyProfile and detectRegions *)

(** The [switch] on [profile.type] in the loop of [applyProfile]. *)
Definition profile_matches (profile : AudioProfile) (analysis : AmplitudeAnalysis)
  (window : list num) : bool :=
  match type_ profile with
  | quiet =>
    rms analysis <? or_default (maxAmplitude (parameters profile)) (decimal 1 10)
  | intensity =>
    rms analysis >? or_default (minAmplitude (parameters profile)) (decimal 7 10)
  | transition => detectTransition window (parameters profile)
  | custom => false
  end.

(** One turn of the loop of [applyProfile], at index [i]: the region it
    pushes, if the window matches. *)
Definition applyProfile_body (audioData : list num) (profile : AudioProfile)
  (sampleRate windowSize i : num) : M (option AudioRegion) :=
  let window := slice audioData i (i + windowSize) in
  let analysis := analyzeAmplitude window no_options in
  if profile_matches profile analysis window then
    (id <- uuidv4 ;;
     ret (Some {| region_id := id;
                  start := i / sampleRate;
                  end_ := (i + windowSize) / sampleRate;
                  profile := profile_id profile;
                  confidence := calculateConfidence analysis profile;
                  data := analysis |}))%engine
  else ret None.

(** [regions.push(r)] when the turn produced a region. *)
Definition push_if {A} (l : list A) (r : option A) : list A :=
  match r with
  | Some x => l ++ [x]
  | None => l
  end.

(** [for (let i = ...; i < audioData.length - windowSize; i += windowSize)],
    from index [i] on.  [fuel] bounds the number of turns.  [windowSize] comes
    from [Math.floor]: with a window of at least 1 the loop takes one turn
    per window, at most [audioData.length] of them, and with a window of 0
    or below, once it starts, it never ends ([i] does not grow).  So the
    loop that uses up [audioData.length + 1] turns never ends. *)
Fixpoint applyProfile_loop (fuel : nat) (audioData : list num)
  (profile : AudioProfile) (sampleRate windowSize i : num)
  (regions : list AudioRegion) : M (list AudioRegion) :=
  if i <? length_of audioData - windowSize then
    match fuel with
    | O => diverge
    | S fuel' =>
      (r <- applyProfile_body audioData profile sampleRate windowSize i ;;
       applyProfile_loop fuel' audioData profile sampleRate windowSize
         (i + windowSize) (push_if regions r))%engine
    end
  else ret regions.

Definition applyProfile (audioData : list num) (profile : AudioProfile)
  (sampleRate : num) : M (list AudioRegion) :=
  let windowSize :=
    Math_floor (or_default (windowSize (parameters profile)) (of_Z 1) * sampleRate) in
  applyProfile_loop (S (List.length audioData)) audioData profile sampleRate
    windowSize (of_Z 0) [].

(** [for (const profile of profiles) regions.push(...applyProfile(...))]. *)
Fixpoint detectRegions_loop (audioData : list num) (sampleRate : num)
  (profiles : list AudioProfile) (regions : list AudioRegion)
  : M (list AudioRegion) :=
  match profiles with
  | [] => ret regions
  | profile :: rest =>
    (profileRegions <- applyProfile audioData profile sampleRate ;;
     detectRegions_loop audioData sampleRate rest (regions ++ profileRegions))%engine
  end.

Definition detectRegions (audioData : list num) (options : Options)
  : M (list AudioRegion) :=
  detectRegions_loop audioData (default_to (sampleRate options) (of_Z 44100))
    (default_to (profiles options) []) [].

(** ** detectPatterns and detectTransitions *)

Fixpoint detectTransitions_loop (fuel : nat) (audioData : list num)
  (sampleRate threshold windowSize i : num) (transitions : list TransitionEntry)
  : Outcome (list TransitionEntry) :=
  if i <? length_of audioData - windowSize then
    match fuel with
    | O => Diverges
    | S fuel' =>
      let before := calculateRMS (slice audioData (i - windowSize) i) in
      let after := calculateRMS (slice audioData i (i + windowSize)) in
      let change := Math_abs (after - before) in
      detectTransitions_loop fuel' audioData sampleRate threshold windowSize
        (i + windowSize)
        (if change >? threshold
         then transitions ++
              [{| time := i / sampleRate;
                  change := change;
                  direction := if after >? before then increasing else decreasing |}]
         else transitions)
    end
  else Returns transitions.

Definition detectTransitions (audioData : list num) (sampleRate threshold : num)
  : Outcome (list TransitionEntry) :=
  let windowSize := Math_floor (decimal 1 10 * sampleRate) in
  detectTransitions_loop (S (List.length audioData)) audioData sampleRate threshold
    windowSize windowSize [].

(** The loop of [detectPatterns] over [quietSections] and [loudSections]. *)
Fixpoint detectPatterns_loop (fuel : nat) (audioData : list num)
  (sampleRate threshold windowSize i : num) (quiet_ loud : list SectionEntry)
  : Outcome (list SectionEntry * list SectionEntry) :=
  if i <? length_of audioData - windowSize then
    match fuel with
    | O => Diverges
    | S fuel' =>
      let window := slice audioData i (i + windowSize) in
      let rms := calculateRMS window in
      let entry := {| section_start := i / sampleRate;
                      section_end := (i + windowSize) / sampleRate;
                      section_rms := rms |} in
      if rms <? threshold then
        detectPatterns_loop fuel' audioData sampleRate threshold windowSize
          (i + windowSize) (quiet_ ++ [entry]) loud
      else if rms >? decimal 7 10 then
        detectPatterns_loop fuel' audioData sampleRate threshold windowSize
          (i + windowSize) quiet_ (loud ++ [entry])
      else
        detectPatterns_loop fuel' audioData sampleRate threshold windowSize
          (i + windowSize) quiet_ loud
    end
  else Returns (quiet_, loud).

Definition detectPatterns (audioData : list num) (options : Options)
  : Outcome Patterns :=
  let threshold := default_to (threshold options) (decimal 1 10) in
  let minDuration := default_to (minDuration options) (decimal 1 10) in
  let sampleRate := or_default (sampleRate options) (of_Z 44100) in
  let windowSize := Math_floor (minDuration * sampleRate) in
  obind (detectPatterns_loop (S (List.length audioData)) audioData sampleRate
           threshold windowSize (of_Z 0) [] [])
    (fun sections =>
  obind (detectTransitions audioData sampleRate threshold)
    (fun transitions =>
  Returns {| quietSections := fst sections;
             loudSections := snd sections;
             transitions := transitions;
             repetitivePatterns := [] |})).

(** ** findDominantFrequencies *)

(** [Math.max(...values)]. *)
Definition Math_max_spread (values : list num) : num :=
  match values with
  | [] => NEGATIVE_INFINITY
  | x :: rest => fold_left Math_max rest x
  end.

(** [for (let i = 0; i < magnitudes.length / 2; i++)], from bin [i] on;
    [rest] holds [magnitudes[i]] and the bins after it. *)
Fixpoint findDominantFrequencies_loop (magnitudes : list num)
  (sampleRate fftSize threshold : num) (i : Z) (rest : list num)
  (frequencies : list FrequencyEntry) : list FrequencyEntry :=
  match rest with
  | [] => frequencies
  | m :: rest' =>
    if of_Z i <? length_of magnitudes / of_Z 2 then
      findDominantFrequencies_loop magnitudes sampleRate fftSize threshold
        (i + 1) rest'
        (if m >? threshold
         then frequencies ++
              [{| frequency := (of_Z i * sampleRate) / fftSize; magnitude := m |}]
         else frequencies)
    else frequencies
  end.

(** Where [array.sort(compareFn)] puts [x] among the sorted [l]: after the
    elements it compares greater than. *)
Fixpoint sort_insert {A} (compareFn : A -> A -> num) (x : A) (l : list A)
  : list A :=
  match l with
  | [] => [x]
  | y :: l' =>
    if compareFn x y >? of_Z 0 then y :: sort_insert compareFn x l' else x :: l
  end.

(** [array.sort(compareFn)]: the sort is stable (ECMAScript 2019). *)
Definition sort {A} (compareFn : A -> A -> num) (l : list A) : list A :=
  fold_right (sort_insert compareFn) [] l.

Definition findDominantFrequencies (magnitudes : list num)
  (sampleRate fftSize : num) : list FrequencyEntry :=
  let threshold := Math_max_spread magnitudes * decimal 1 10 in
  let frequencies :=
    findDominantFrequencies_loop magnitudes sampleRate fftSize threshold 0
      magnitudes [] in
  slice (sort (fun a b => magnitude b - magnitude a) frequencies)
    (of_Z 0) (of_Z 5).

(** ** analyzeSpectral *)

(** [array[i]] in arithmetic, for a whole number [i] (the loop of
    [calculateBandEnergy] counts in whole numbers): NaN when there is no
    such element. *)
Definition element (a : list num) (i : num) : num :=
  match ToIntegerOrInfinity i with
  | Int z => if (z <? 0)%Z then NaN else nth (Z.to_nat z) a NaN
  | _ => NaN
  end.

(** The Hanning window, stored into a [Float32Array]. *)
Fixpoint applyWindow_loop (len : num) (i : Z) (rest : list num) : list num :=
  match rest with
  | [] => []
  | x :: rest' =>
    let windowValue :=
      decimal 5 10
      * (of_Z 1 - Math_cos ((of_Z 2 * Math_PI * of_Z i) / (len - of_Z 1))) in
    fround (x * windowValue) :: applyWindow_loop len (i + 1) rest'
  end.

Definition applyWindow (data : list num) : list num :=
  applyWindow_loop (length_of data) 0 data.

(** The number of turns of [for (i = start; i < end; i++)] when it ends. *)
Definition turns (start end_ : num) : nat :=
  match ToIntegerOrInfinity (end_ - start) with
  | Int z => S (Z.to_nat z)
  | _ => O
  end.

Fixpoint calculateBandEnergy_loop (fuel : nat) (magnitudes : list num)
  (i end_ energy : num) : Outcome num :=
  if i <? end_ then
    match fuel with
    | O => Diverges
    | S fuel' =>
      calculateBandEnergy_loop fuel' magnitudes (i + of_Z 1) end_
        (energy + element magnitudes i * element magnitudes i)
    end
  else Returns energy.

Definition calculateBandEnergy (magnitudes : list num) (start end_ : num)
  : Outcome num :=
  calculateBandEnergy_loop (turns start end_) magnitudes start end_ (of_Z 0).

(** The sums of the spectral centroid, from bin [i] on. *)
Fixpoint spectralCentroid_loop (sampleRate fftSize : num) (i : Z)
  (rest : list num) (sums : num * num) : num * num :=
  match rest with
  | [] => sums
  | magnitude :: rest' =>
    let frequency := (of_Z i * sampleRate) / fftSize in
    spectralCentroid_loop sampleRate fftSize (i + 1) rest'
      (fst sums + frequency * magnitude, snd sums + magnitude)
  end.

Section Orchestrator.

(** [fftjs.fft] of the package fft-js, which is not part of the repository:
    the transform of a vector, as pairs (real, imaginary), or what it
    throws. *)
Variable fft : list num -> Outcome (list (num * num)).

Definition analyzeSpectral (audioData : list num) (options : Options)
  : Outcome SpectralAnalysis :=
  let fftSize := default_to (fftSize options) (of_Z 2048) in
  let sampleRate := default_to (sampleRate options) (of_Z 44100) in
  let windowedData := applyWindow (slice audioData (of_Z 0) fftSize) in
  obind (fft windowedData) (fun fftResult =>
  let magnitudes :=
    map (fun complex =>
           Math_sqrt (fst complex * fst complex + snd complex * snd complex))
        fftResult in
  let sums :=
    spectralCentroid_loop sampleRate fftSize 0 magnitudes (of_Z 0, of_Z 0) in
  let weightedSum := fst sums in
  let magnitudeSum := snd sums in
  let bassEnd := Math_floor (fftSize * of_Z 250 / sampleRate) in
  let midEnd := Math_floor (fftSize * of_Z 4000 / sampleRate) in
  obind (calculateBandEnergy magnitudes (of_Z 0) bassEnd) (fun bass =>
  obind (calculateBandEnergy magnitudes bassEnd midEnd) (fun mid =>
  obind (calculateBandEnergy magnitudes midEnd (length_of magnitudes / of_Z 2))
    (fun treble =>
  Returns
    {| spectralCentroid :=
         if magnitudeSum >? of_Z 0 then weightedSum / magnitudeSum else of_Z 0;
       spectralRolloff := of_Z 0;
       spectralFlux := of_Z 0;
       dominantFrequencies := findDominantFrequencies magnitudes sampleRate fftSize;
       frequencyBands := {| bass := bass; mid := mid; treble := treble |} |})))).

(** ** analyzeAudio *)

Definition analyzeAudio (audioData : list num) (options : Options)
  : M AudioAnalysis :=
  try_catch
    (id <- uuidv4 ;;
     timestamp <- Date_toISOString ;;
     amplitude <- ret (analyzeAmplitude audioData options) ;;
     spectral <- lift (analyzeSpectral audioData options) ;;
     patterns <- lift (detectPatterns audioData options) ;;
     regions <- detectRegions audioData options ;;
     ret {| analysis_id := id;
            timestamp := timestamp;
            sampleCount := Z.of_nat (List.length audioData);
            analysis := {| amplitude := amplitude;
                           spectral := spectral;
                           patterns := patterns;
                           regions := regions |} |})%engine
    (fun error =>
       throw (new_Error (String.append "Analysis failed: " (message error)))).

End Orchestrator.

End Engine.

(** ** The callers of the engine

    The handlers of [backend/src/controllers/analysis.ts] (the routes of
    routes/analysis carry the same code inline, with one difference, in
    the route for regions) and the error handler of
    [backend/src/middleware/errorHandler.ts] that answers for them when
    they pass an error on. *)

(** [new TypeError(msg)], as the runtime throws it. *)
Definition new_TypeError (msg : string) : JSError :=
  {| name := "TypeError"; message := msg |}.

Section Requests.

Context {num : Type} {N : JSNumber num}.

(** [req.body.audioData] as the handlers test it: absent, null, an array,
    or another value, which is truthy or not.  The elements of an array are
    numbers, as its type [number[]] has it. *)
Inductive BodyValue : Type :=
| undefined
| null
| other (holds : bool)
| array (elements : list num).

Definition ToBoolean (v : BodyValue) : bool :=
  match v with
  | undefined => false
  | null => false
  | other holds => holds
  | array _ => true
  end.

Definition Array_isArray (v : BodyValue) : bool :=
  match v with
  | array _ => true
  | _ => false
  end.

(** [new Float32Array(audioData)]: every element is rounded to single
    precision.  (The handlers call it on arrays only.) *)
Definition Float32Array (v : BodyValue) : list num :=
  match v with
  | array elements => map fround elements
  | _ => []
  end.

(** [req.body], as far as the handlers read it. *)
Record RequestBody : Type := {
  body_audioData : BodyValue;
  body_profiles : option (list (AudioProfile (num := num)));
  body_options : option (Options (num := num))
}.

(** The objects the handlers send: [{ success: true, data }] and
    [{ success: false, error }]. *)
Inductive ResponseBody (A : Type) : Type :=
| success (data : A)
| failure (error : string).

(** How a handler ends: [res.status(status).json(body)] ([res.json] alone
    answers with status 200), or [next(error)]. *)
Inductive Reply (A : Type) : Type :=
| res_json (status : Z) (body : ResponseBody A)
| next (error : JSError).

(** The [data] of the answer of the handler for regions. *)
Record RegionsData : Type := {
  data_regions : list (AudioRegion (num := num));
  data_count : Z;
  data_profiles : list string
}.

(** [{ ...options, profiles }]. *)
Definition with_profiles (options : Options (num := num))
  (profiles : list AudioProfile) : Options :=
  {| opt_windowSize := opt_windowSize options;
     fftSize := fftSize options;
     sampleRate := sampleRate options;
     threshold := threshold options;
     minDuration := minDuration options;
     profiles := Some profiles |}.

(** [!audioData || !Array.isArray(audioData)]. *)
Definition invalid_audioData (audioData : BodyValue) : bool :=
  negb (ToBoolean audioData) || negb (Array_isArray audioData).

(** [res.status(400).json({ success: false, error: 'Invalid audio data format' })]. *)
Definition invalid_format {A} : Reply A :=
  res_json 400 (failure A "Invalid audio data format").

End Requests.

Arguments success {A} data.
Arguments failure {A} error.
Arguments res_json {A} status body.
Arguments next {A} error.

Module Controllers.

Section Handlers.

Context {num : Type} {N : JSNumber num}.

Variable fft : list num -> Outcome (list (num * num)).

Local Open Scope engine_scope.

Definition analyzeAudio (body : RequestBody) : M (Reply AudioAnalysis) :=
  try_catch
    (let audioData := body_audioData body in
     let options := default_to (body_options body) no_options in
     if invalid_audioData audioData then ret invalid_format
     else
       results <- analyzeAudio fft (Float32Array audioData) options ;;
       ret (res_json 200 (success results)))
    (fun error => ret (next error)).

(** [profiles.length], read for the log entry, throws when the body has no
    [profiles]. *)
Definition detectRegions (body : RequestBody) : M (Reply RegionsData) :=
  try_catch
    (let audioData := body_audioData body in
     let options := default_to (body_options body) no_options in
     if invalid_audioData audioData then ret invalid_format
     else
       profiles <-
         match body_profiles body with
         | Some profiles => ret profiles
         | None =>
           throw (new_TypeError
                    "Cannot read properties of undefined (reading 'length')")
         end ;;
       regions <- detectRegions (Float32Array audioData)
                    (with_profiles options profiles) ;;
       ret (res_json 200
              (success {| data_regions := regions;
                          data_count := Z.of_nat (List.length regions);
                          data_profiles := map profile_id profiles |})))
    (fun error => ret (next error)).

Definition detectPatterns (body : RequestBody) : M (Reply Patterns) :=
  try_catch
    (let audioData := body_audioData body in
     let options := default_to (body_options body) no_options in
     if invalid_audioData audioData then ret invalid_format
     else
       patterns <- lift (detectPatterns (Float32Array audioData) options) ;;
       ret (res_json 200 (success patterns)))
    (fun error => ret (next error)).

Definition analyzeSpectral (body : RequestBody) : M (Reply SpectralAnalysis) :=
  try_catch
    (let audioData := body_audioData body in
     let options := default_to (body_options body) no_options in
     if invalid_audioData audioData then ret invalid_format
     else
       spectral <- lift (analyzeSpectral fft (Float32Array audioData) options) ;;
       ret (res_json 200 (success spectral)))
    (fun error => ret (next error)).

End Handlers.

End Controllers.

Module Routes.

Section Handlers.

Context {num : Type} {N : JSNumber num}.

Local Open Scope engine_scope.

(** [router.post('/regions', ...)] of routes/analysis: the code of
    [Controllers.detectRegions], but with [profiles = []] for a body
    without [profiles]. *)
Definition post_regions (body : RequestBody) : M (Reply RegionsData) :=
  try_catch
    (let audioData := body_audioData body in
     let profiles := default_to (body_profiles body) [] in
     let options := default_to (body_options body) no_options in
     if invalid_audioData audioData then ret invalid_format
     else
       regions <- detectRegions (Float32Array audioData)
                    (with_profiles options profiles) ;;
       ret (res_json 200
              (success {| data_regions := regions;
                          data_count := Z.of_nat (List.length regions);
                          data_profiles := map profile_id profiles |})))
    (fun error => ret (next error)).

End Handlers.

End Routes.

(** *** errorHandler *)

(** An error as [errorHandler] reads it. *)
Record AppError : Type := {
  error_name : string;
  error_message : string;
  statusCode : option Z;
  code : option string;
  stack : option string
}.

(** An error the engine or a handler throws, with the stack trace the
    runtime gave it: it has no [statusCode] and no [code]. *)
Definition thrown_error (e : JSError) (trace : option string) : AppError :=
  {| error_name := name e; error_message := message e;
     statusCode := None; code := None; stack := trace |}.

(** The answer of [errorHandler]: the status and the object
    [{ success: false, error, message, stack }]. *)
Record ErrorResponse : Type := {
  response_status : Z;
  response_error : string;
  response_message : string;
  response_stack : option string
}.

(** [development]: whether [process.env.NODE_ENV === 'development']. *)
Definition errorHandler (development : bool) (err : AppError) : ErrorResponse :=
  let statusCode :=
    match statusCode err with
    | Some z => if (z =? 0)%Z then 500%Z else z
    | None => 500%Z
    end in
  let message := "Internal Server Error"%string in
  let answer :=
    if String.eqb (error_name err) "ValidationError"
    then (400%Z, "Validation Error"%string)
    else if String.eqb (error_name err) "UnauthorizedError"
    then (401%Z, "Unauthorized"%string)
    else if String.eqb (error_name err) "NotFoundError"
    then (404%Z, "Resource Not Found"%string)
    else if match code err with Some c => String.eqb c "ENOENT" | None => false end
    then (404%Z, "File Not Found"%string)
    else if match code err with Some c => String.eqb c "LIMIT_FILE_SIZE" | None => false end
    then (413%Z, "File Too Large"%string)
    else (statusCode, message) in
  {| response_status := fst answer;
     response_error := snd answer;
     response_message :=
       match error_message err with
       | EmptyString => "An unexpected error occurred"%string
       | m => m
       end;
     response_stack := if development then stack err else None |}.

(** ** The arithmetic the code runs on: IEEE-754 binary64 *)

Module Binary64.

(** The double nearest to an integer. *)
Definition of_Z (z : Z) : float := SF2Prim (binary_normalize prec emax z 0 false).

Definition truthy (x : float) : bool := negb (is_zero x || is_nan x).

Definition ToIntegerOrInfinity (x : float) : IntegerOrInfinity :=
  match Prim2SF x with
  | S754_nan => Int 0
  | S754_zero _ => Int 0
  | S754_infinity s => if s then NegInfinity else PosInfinity
  | S754_finite s m e =>
    let t := if (0 <=? e)%Z then Z.shiftl (Zpos m) e else Z.shiftr (Zpos m) (- e) in
    Int (if s then - t else t)
  end.

Definition floor (x : float) : float :=
  match Prim2SF x with
  | S754_finite s m e =>
    if (0 <=? e)%Z then x
    else
      let q := Z.shiftr (Zpos m) (- e) in
      let whole := Z.eqb (Z.shiftl q (- e)) (Zpos m) in
      if s then of_Z (- (if whole then q else q + 1)) else of_Z q
  | _ => x
  end.

(** Rounding to binary32 and back, what a store into a [Float32Array] does. *)
Definition fround (x : float) : float :=
  match Prim2SF x with
  | S754_finite s m e => SF2Prim (binary_round 24 128 s m e)
  | _ => x
  end.

(** [Math.max]: NaN when an argument is, and +0 above -0. *)
Definition max (a b : float) : float :=
  if is_nan a || is_nan b then nan
  else if (a <? b)%float then b
  else if (b <? a)%float then a
  else if get_sign a then b else a.

(** [Math.min]: NaN when an argument is, and -0 below +0. *)
Definition min (a b : float) : float :=
  if is_nan a || is_nan b then nan
  else if (a <? b)%float then a
  else if (b <? a)%float then b
  else if get_sign a then a else b.

End Binary64.

(** Doubles as JavaScript numbers.  [Math.log10] and [Math.cos] are
    approximations the platform chooses; they are taken as given.
    [Math.pow(x, 2)] is the product x * x (fdlibm's pow, which V8 uses,
    returns it for the exponent 2). *)
Definition binary64 (log10 cos : float -> float) : JSNumber float :=
  {| of_Z := Binary64.of_Z;
     js_add := PrimFloat.add;
     js_sub := PrimFloat.sub;
     js_mul := PrimFloat.mul;
     js_div := PrimFloat.div;
     js_ltb := PrimFloat.ltb;
     js_leb := PrimFloat.leb;
     truthy := Binary64.truthy;
     ToIntegerOrInfinity := Binary64.ToIntegerOrInfinity;
     fround := Binary64.fround;
     Math_abs := PrimFloat.abs;
     Math_sqrt := PrimFloat.sqrt;
     Math_floor := Binary64.floor;
     Math_log10 := log10;
     Math_cos := cos;
     Math_pow_2 := fun x => PrimFloat.mul x x;
     Math_max := Binary64.max;
     Math_min := Binary64.min;
     Math_PI := 0x1.921fb54442d18p+1%float;
     NEGATIVE_INFINITY := neg_infinity;
     NaN := nan |}.

(** ** The arithmetic of the specification's formulas: the real numbers *)

Module Exact.

Definition ltb (a b : R) : bool := if Rlt_dec a b then true else false.

Definition leb (a b : R) : bool := if Rle_dec a b then true else false.

Definition truthy (x : R) : bool := if Req_dec_T x 0 then false else true.

(** Truncation towards zero. *)
Definition ToIntegerOrInfinity (x : R) : IntegerOrInfinity :=
  Int (if Rle_dec 0 x then Zfloor x else (- Zfloor (- x))%Z).

End Exact.

(** Real numbers as JavaScript numbers: every operation is exact.  There is
    no infinity and no NaN among them; where JavaScript produces one (a
    division by zero, [Math.max()] of nothing, a missing array element) this
    instance has an unspecified real, and it stands for the code only on
    inputs that stay clear of those cases. *)
#[export] Instance exact : JSNumber R :=
  {| of_Z := IZR;
     js_add := Rplus;
     js_sub := Rminus;
     js_mul := Rmult;
     js_div := Rdiv;
     js_ltb := Exact.ltb;
     js_leb := Exact.leb;
     truthy := Exact.truthy;
     ToIntegerOrInfinity := Exact.ToIntegerOrInfinity;
     fround := fun x => x;
     Math_abs := Rabs;
     Math_sqrt := R_sqrt.sqrt;
     Math_floor := fun x => IZR (Zfloor x);
     Math_log10 := fun x => (ln x / ln 10)%R;
     Math_cos := Rtrigo_def.cos;
     Math_pow_2 := fun x => (x * x)%R;
     Math_max := Rmax;
     Math_min := Rmin;
     Math_PI := PI;
     NEGATIVE_INFINITY := 0%R;
     NaN := 0%R |}.

(** ** Inputs for closed runs *)

(** Stand-ins for the platform's [Math.log10] and [Math.cos] where a closed
    run needs some: the results stated of such runs do not depend on them. *)
Definition any_log10 (x : float) : float := x.
Definition any_cos (x : float) : float := x.

Definition doubles : JSNumber float := binary64 any_log10 any_cos.

(** A world whose n-th identifier is the digit n. *)
Definition world_0 : World :=
  {| uuids := fun n => String (ascii_of_nat (48 + n)) EmptyString;
     drawn := 0; clock := "2024-01-01T00:00:00.000Z" |}.

(** 0.1 as a [Float32Array] holds it. *)
Definition tenth32 : float := 0x1.99999ap-4.

(** The "Quiet Section" profile of [data/db.ts], as far as the engine reads it. *)
Definition quiet_section : AudioProfile (num := float) :=
  {| profile_id := "quiet-default"; type_ := quiet;
     parameters := {| windowSize := None; maxAmplitude := Some 0.1%float;
                      minAmplitude := None; sensitivity := None |} |}.

(** The "High Intensity" profile of [data/db.ts]. *)
Definition high_intensity : AudioProfile (num := float) :=
  {| profile_id := "intensity-default"; type_ := intensity;
     parameters := {| windowSize := None; maxAmplitude := None;
                      minAmplitude := Some 0.7%float; sensitivity := None |} |}.

(** A profile with no parameter set, over the real numbers. *)
Definition bare_profile (t : ProfileType) : AudioProfile (num := R) :=
  {| profile_id := "p"; type_ := t;
     parameters := {| windowSize := None; maxAmplitude := None;
                      minAmplitude := None; sensitivity := None |} |}.

(** Three seconds of a constant signal at 2 samples a second. *)
Definition six_samples : list R := [1; 1; 1; 1; 1; 1]%R.

(** One second of silence at 44100 Hz. *)
Definition silent_second : list float := repeat 0%float (Z.to_nat 44100).

(** The entry of [quietSections] for the silent window that starts at
    sample [i], under the default options. *)
Definition silent_entry (i : Z) : SectionEntry (num := float) :=
  {| section_start := (Binary64.of_Z i / 44100)%float;
     section_end := (Binary64.of_Z (i + 4410) / 44100)%float;
     section_rms := 0%float |}.

(** What fft-js throws on a vector whose length is not a power of two
    (it reads a missing element of a half). *)
Definition fft_TypeError : JSError :=
  {| name := "TypeError";
     message := "Cannot read properties of undefined (reading '0')" |}.

(** fft-js on a vector of zeros: every bin is 0 + 0i. *)
Definition fft_of_silence (vector : list float) : Outcome (list (float * float)) :=
  Returns (map (fun _ => (0, 0)%float) vector).

(** 2.1 s of silence at 10 Hz, matched against "Quiet Section". *)
Definition silence_21 : list float := repeat 0%float 21.

Definition quiet_options : Options (num := float) :=
  {| opt_windowSize := None; fftSize := Some 4%float; sampleRate := Some 10%float;
     threshold := None; minDuration := None; profiles := Some [quiet_section] |}.

(** A quiet profile with a window of 1.79e308 s; at 5.6e-309 samples a
    second that is a window of one sample. *)
Definition long_window_profile : AudioProfile (num := float) :=
  {| profile_id := "q"; type_ := quiet;
     parameters := {| windowSize := Some 1.79e308%float; maxAmplitude := None;
                      minAmplitude := None; sensitivity := None |} |}.

Definition slow_rate : float := 5.6e-309.

(** * Properties *)

(** ** Doubles: the instance on values JavaScript gives *)

Section Binary64Values.

Variables log10 cos : float -> float.

Local Open Scope float_scope.

(** The literals of the engine: 0.1, 0.7, 0.5 are the doubles nearest to
    them. *)
Example literals_binary64 :
  decimal (N := binary64 log10 cos) 1 10 = 0.1
  /\ decimal (N := binary64 log10 cos) 7 10 = 0.7
  /\ decimal (N := binary64 log10 cos) 5 10 = 0.5
  /\ of_Z (JSNumber := binary64 log10 cos) 44100 = 44100
  /\ of_Z (JSNumber := binary64 log10 cos) (-3) = -3.
Proof. repeat split; reflexivity. Qed.

Example Math_floor_binary64 :
  Binary64.floor 4410.7 = 4410
  /\ Binary64.floor (0.1 * 44100) = 4410
  /\ Binary64.floor 0.5 = 0
  /\ Binary64.floor (-0.5) = -1
  /\ Binary64.floor (-4410) = -4410
  /\ Binary64.floor neg_zero = neg_zero
  /\ Binary64.floor infinity = infinity
  /\ Binary64.floor nan = nan.
Proof. repeat split; reflexivity. Qed.

Example Math_max_min_binary64 :
  Binary64.max 0 neg_zero = 0
  /\ Binary64.max neg_zero 0 = 0
  /\ Binary64.min 0 neg_zero = neg_zero
  /\ Binary64.max 1 nan = nan
  /\ Binary64.min nan 1 = nan
  /\ Binary64.max 0.25 0.5 = 0.5
  /\ Binary64.min 1 infinity = 1.
Proof. repeat split; reflexivity. Qed.

Example conversions_binary64 :
  Binary64.ToIntegerOrInfinity 4410.7 = Int 4410
  /\ Binary64.ToIntegerOrInfinity (-4410.7) = Int (-4410)
  /\ Binary64.ToIntegerOrInfinity nan = Int 0
  /\ Binary64.ToIntegerOrInfinity neg_infinity = NegInfinity
  /\ Binary64.fround 0.1 = 0x1.99999ap-4
  /\ Binary64.fround 1e40 = infinity
  /\ Binary64.fround 0.5 = 0.5
  /\ Binary64.truthy 0 = false
  /\ Binary64.truthy neg_zero = false
  /\ Binary64.truthy nan = false
  /\ Binary64.truthy 0.1 = true.
Proof. repeat split; reflexivity. Qed.

(** [slice] as on a typed array: negative indices count from the end, and
    indices past the end stop there. *)
Example slice_binary64 :
  slice (N := binary64 log10 cos) [1; 2; 3; 4; 5] 1 3 = [2; 3]
  /\ slice (N := binary64 log10 cos) [1; 2; 3; 4; 5] 3 10 = [4; 5]
  /\ slice (N := binary64 log10 cos) [1; 2; 3; 4; 5] (-2) 5 = [4; 5]
  /\ slice (N := binary64 log10 cos) [1; 2; 3; 4; 5] 4 2 = [].
Proof. repeat split; reflexivity. Qed.

(** A stable sort, largest magnitude first. *)
Example sort_binary64 :
  map (fun e => frequency e)
    (sort (N := binary64 log10 cos) (fun a b => magnitude b - magnitude a)
       [{| frequency := 1; magnitude := 2 |};
        {| frequency := 2; magnitude := 5 |};
        {| frequency := 3; magnitude := 2 |};
        {| frequency := 4; magnitude := 7 |}])
  = [4; 2; 1; 3].
Proof. reflexivity. Qed.

End Binary64Values.

(** ** Exact arithmetic: the sums and the maximum of [analyzeAmplitude] *)

Section ExactAmplitude.

Local Open Scope R_scope.

(** The sum of the squares of a window. *)
Fixpoint sum_of_squares (window : list R) : R :=
  match window with
  | [] => 0
  | x :: rest => Rabs x * Rabs x + sum_of_squares rest
  end.

(** The largest absolute value in a window, 0 for the empty one. *)
Fixpoint max_abs (window : list R) : R :=
  match window with
  | [] => 0
  | x :: rest => Rmax (Rabs x) (max_abs rest)
  end.

(** Every sample of the window has the same absolute value. *)
Definition constant_magnitude (window : list R) : Prop :=
  forall x y, In x window -> In y window -> Rabs x = Rabs y.

Lemma analyzeAmplitude_loop_sumSquares (window : list R) :
  forall prev st,
    acc_sumSquares (analyzeAmplitude_loop prev window st)
    = acc_sumSquares st + sum_of_squares window.
Proof.
  induction window as [|x rest IH]; intros prev st; simpl.
  - lra.
  - rewrite IH. simpl. lra.
Qed.

Lemma max_abs_nonneg (window : list R) : 0 <= max_abs window.
Proof.
  induction window as [|x rest IH]; simpl.
  - lra.
  - apply Rle_trans with (1 := IH), Rmax_r.
Qed.

Lemma analyzeAmplitude_loop_peak (window : list R) :
  forall prev st,
    0 <= acc_peak st ->
    acc_peak (analyzeAmplitude_loop prev window st)
    = Rmax (acc_peak st) (max_abs window).
Proof.
  induction window as [|x rest IH]; intros prev st Hst; simpl.
  - now rewrite Rmax_left.
  - rewrite IH; simpl.
    + now rewrite Rmax_assoc.
    + apply Rle_trans with (1 := Hst), Rmax_l.
Qed.

Lemma max_abs_bounds (window : list R) :
  forall x, In x window -> Rabs x <= max_abs window.
Proof.
  induction window as [|y rest IH]; simpl; intros x Hx.
  - contradiction.
  - destruct Hx as [->|Hx].
    + apply Rmax_l.
    + apply Rle_trans with (1 := IH x Hx), Rmax_r.
Qed.

(** The maximum is reached by a sample of a window that has one. *)
Lemma max_abs_reached (window : list R) :
  window <> [] -> exists x, In x window /\ Rabs x = max_abs window.
Proof.
  induction window as [|y rest IH]; intros Hne; [congruence|].
  destruct rest as [|z rest'].
  - exists y. split; [now left|]. simpl.
    rewrite Rmax_left; [reflexivity | apply Rabs_pos].
  - destruct IH as (x & Hx & Hmax); [congruence|].
    change (max_abs (y :: z :: rest')) with (Rmax (Rabs y) (max_abs (z :: rest'))).
    destruct (Rle_dec (Rabs y) (max_abs (z :: rest'))) as [Hle|Hgt].
    + exists x. split; [now right|]. now rewrite Rmax_right.
    + exists y. split; [now left|]. rewrite Rmax_left; [reflexivity | lra].
Qed.

Lemma sum_of_squares_bound (window : list R) :
  sum_of_squares window
  <= INR (List.length window) * (max_abs window * max_abs window).
Proof.
  induction window as [|x rest IH].
  - simpl. lra.
  - change (sum_of_squares (x :: rest))
      with (Rabs x * Rabs x + sum_of_squares rest).
    change (max_abs (x :: rest)) with (Rmax (Rabs x) (max_abs rest)).
    change (List.length (x :: rest)) with (S (List.length rest)).
    rewrite (S_INR (List.length rest)).
    pose proof (Rabs_pos x) as Hx.
    pose proof (max_abs_nonneg rest) as Hr.
    pose proof (Rmax_l (Rabs x) (max_abs rest)) as Hl.
    pose proof (Rmax_r (Rabs x) (max_abs rest)) as Hm.
    pose proof (pos_INR (List.length rest)) as Hn.
    set (p := Rmax (Rabs x) (max_abs rest)) in *.
    assert (Rabs x * Rabs x <= p * p) by nra.
    assert (max_abs rest * max_abs rest <= p * p) by nra.
    assert (INR (List.length rest) * (max_abs rest * max_abs rest)
            <= INR (List.length rest) * (p * p)) by nra.
    lra.
Qed.

(** The bound is reached only by a window of constant magnitude. *)
Lemma sum_of_squares_reaches_bound (window : list R) (c : R) :
  (forall x, In x window -> Rabs x <= c) ->
  sum_of_squares window = INR (List.length window) * (c * c) ->
  forall x, In x window -> Rabs x = c.
Proof.
  induction window as [|y rest IH]; intros Hc Hsum x Hx; [contradiction|].
  change (sum_of_squares (y :: rest))
    with (Rabs y * Rabs y + sum_of_squares rest) in Hsum.
  change (List.length (y :: rest)) with (S (List.length rest)) in Hsum.
  rewrite (S_INR (List.length rest)) in Hsum.
  assert (Hy : Rabs y <= c) by (apply Hc; now left).
  assert (Hrest : forall z, In z rest -> Rabs z <= c)
    by (intros z Hz; apply Hc; now right).
  pose proof (Rabs_pos y) as Hy0.
  assert (Hb : sum_of_squares rest <= INR (List.length rest) * (c * c)).
  { clear - Hrest. induction rest as [|z rest IH].
    - simpl. lra.
    - change (sum_of_squares (z :: rest))
        with (Rabs z * Rabs z + sum_of_squares rest).
      change (List.length (z :: rest)) with (S (List.length rest)).
      rewrite S_INR.
      assert (Rabs z <= c) by (apply Hrest; now left).
      pose proof (Rabs_pos z).
      assert (sum_of_squares rest <= INR (List.length rest) * (c * c))
        by (apply IH; intros; apply Hrest; now right).
      nra. }
  assert (Hyy : Rabs y * Rabs y <= c * c) by nra.
  assert (Hy2 : Rabs y * Rabs y = c * c) by lra.
  assert (Hs2 : sum_of_squares rest = INR (List.length rest) * (c * c)) by lra.
  destruct Hx as [->|Hx].
  - nra.
  - now apply IH.
Qed.

Lemma sum_of_squares_constant (window : list R) (c : R) :
  (forall x, In x window -> Rabs x = c) ->
  sum_of_squares window = INR (List.length window) * (c * c).
Proof.
  induction window as [|y rest IH]; intros Hc.
  - simpl. lra.
  - change (sum_of_squares (y :: rest))
      with (Rabs y * Rabs y + sum_of_squares rest).
    change (List.length (y :: rest)) with (S (List.length rest)).
    rewrite (S_INR (List.length rest)), IH by (intros; apply Hc; now right).
    rewrite (Hc y) by now left. lra.
Qed.

Lemma sum_of_squares_nonneg (window : list R) : 0 <= sum_of_squares window.
Proof.
  induction window as [|x rest IH]; simpl.
  - lra.
  - pose proof (Rabs_pos x). nra.
Qed.

Lemma analyzeAmplitude_rms_exact (window : list R) (options : Options) :
  rms (analyzeAmplitude window options)
  = sqrt (sum_of_squares window / INR (List.length window)).
Proof.
  unfold analyzeAmplitude, length_of. simpl.
  rewrite analyzeAmplitude_loop_sumSquares. simpl.
  rewrite <- INR_IZR_INZ. f_equal. f_equal. lra.
Qed.

Lemma analyzeAmplitude_peak_exact (window : list R) (options : Options) :
  peak (analyzeAmplitude window options) = max_abs window.
Proof.
  unfold analyzeAmplitude. simpl.
  rewrite analyzeAmplitude_loop_peak by (simpl; lra). simpl.
  apply Rmax_right, max_abs_nonneg.
Qed.

(** C1, as amended: in exact arithmetic, the [rms] that [analyzeAmplitude]
    returns for a non-empty window is at most its [peak], and the two are
    equal exactly when every sample of the window has the same absolute
    value. *)
Theorem rms_le_peak_exact (window : list R) (options : Options) :
  window <> [] ->
  rms (analyzeAmplitude window options) <= peak (analyzeAmplitude window options)
  /\ (rms (analyzeAmplitude window options) = peak (analyzeAmplitude window options)
      <-> constant_magnitude window).
Proof.
  intros Hne.
  rewrite analyzeAmplitude_rms_exact, analyzeAmplitude_peak_exact.
  set (n := INR (List.length window)).
  set (p := max_abs window).
  set (s := sum_of_squares window).
  assert (Hn : 0 < n).
  { unfold n. destruct window; [congruence|]. apply lt_0_INR. simpl. lia. }
  assert (Hp : 0 <= p) by apply max_abs_nonneg.
  assert (Hs : 0 <= s) by apply sum_of_squares_nonneg.
  assert (Hb : s <= n * (p * p)) by apply sum_of_squares_bound.
  assert (Hq : 0 <= s / n) by (apply Rmult_le_pos; [lra | left; now apply Rinv_0_lt_compat]).
  assert (Hle : s / n <= p * p).
  { apply Rmult_le_reg_r with n; [lra|]. unfold Rdiv.
    rewrite Rmult_assoc, Rinv_l by lra. lra. }
  split; [|split].
  - rewrite <- (sqrt_square p Hp). now apply sqrt_le_1_alt.
  - intros Heq x y Hx Hy.
    assert (Hsn : s / n = p * p) by (rewrite <- Heq; now rewrite sqrt_sqrt).
    assert (Hsum : s = n * (p * p)).
    { rewrite <- Hsn. unfold Rdiv. field. lra. }
    pose proof (sum_of_squares_reaches_bound window (max_abs_bounds window) Hsum) as Hall.
    now rewrite (Hall x Hx), (Hall y Hy).
  - intros Hconst.
    destruct (max_abs_reached Hne) as (x0 & Hx0 & Hmax).
    assert (Hsum : s = n * (p * p)).
    { apply sum_of_squares_constant. intros x Hx.
      unfold p. rewrite <- Hmax. now apply Hconst. }
    replace (s / n) with (p * p) by (rewrite Hsum; field; lra).
    now apply sqrt_square.
Qed.

(** The window [1, -1, 1] is of constant magnitude, and there [rms = peak]. *)
Lemma rms_le_peak_exact_witness :
  [1; -1; 1] <> []
  /\ rms (analyzeAmplitude [1; -1; 1] no_options)
     <= peak (analyzeAmplitude [1; -1; 1] no_options).
Proof.
  split; [discriminate|].
  apply (rms_le_peak_exact (window := [1; -1; 1]) no_options). discriminate.
Defined.

End ExactAmplitude.

(** ** Doubles: what the code computes on concrete windows *)

Section Binary64Amplitude.

Variables log10 cos : float -> float.

Lemma tenth32_is_float32 : Binary64.fround 0.1 = tenth32 /\ Binary64.fround tenth32 = tenth32.
Proof. split; vm_compute; reflexivity. Qed.

(** A constant window of 53 samples: there [rms] comes out below [peak]. *)
Example rms_of_53_tenths :
  rms (analyzeAmplitude (N := binary64 log10 cos) (repeat tenth32 53) no_options)
  = 0x1.999999fffffffp-4%float
  /\ PrimFloat.ltb
       (rms (analyzeAmplitude (N := binary64 log10 cos) (repeat tenth32 53) no_options))
       (peak (analyzeAmplitude (N := binary64 log10 cos) (repeat tenth32 53) no_options))
     = true.
Proof. split; vm_compute; reflexivity. Qed.

Lemma rms_of_51_tenths :
  rms (analyzeAmplitude (N := binary64 log10 cos) (repeat tenth32 51) no_options) = 0x1.99999a0000001p-4%float
  /\ peak (analyzeAmplitude (N := binary64 log10 cos) (repeat tenth32 51) no_options) = tenth32.
Proof. split; vm_compute; reflexivity. Qed.

End Binary64Amplitude.

(** C1 fails on the code: on a window of 51 samples 0.1 (finite, as a
    [Float32Array] holds them, constant) the doubles it computes have
    [rms > peak], whatever the platform's [Math.log10] and [Math.cos]. *)
Lemma rms_exceeds_peak_binary64 :
  exists window : list float,
    window <> []
    /\ Forall (fun x => is_finite x = true /\ Binary64.fround x = x) window
    /\ forall log10 cos : float -> float,
        PrimFloat.ltb (peak (analyzeAmplitude (N := binary64 log10 cos) window no_options))
                      (rms (analyzeAmplitude (N := binary64 log10 cos) window no_options))
        = true.
Proof.
  exists (repeat tenth32 51). split; [discriminate|]. split.
  - apply Forall_forall. intros x Hx. apply repeat_spec in Hx. subst x.
    split; vm_compute; reflexivity.
  - intros log10 cos. vm_compute. reflexivity.
Qed.

(** ** Zero crossings and silence *)

Section ZeroCrossings.

Context {num : Type} {N : JSNumber num}.

Lemma analyzeAmplitude_loop_same_sign (side : bool) (window : list num) :
  Forall (fun x => js_leb (of_Z 0) x = side) window ->
  forall prev st,
    match prev with Some p => js_leb (of_Z 0) p = side | None => True end ->
    acc_zeroCrossings (analyzeAmplitude_loop prev window st) = acc_zeroCrossings st.
Proof.
  induction 1 as [|x rest Hx _ IH]; intros prev st Hprev; [reflexivity|].
  cbn [analyzeAmplitude_loop]. rewrite IH by exact Hx.
  cbn [acc_zeroCrossings]. destruct prev as [p|]; [|reflexivity].
  now rewrite Hx, Hprev, xorb_nilpotent.
Qed.

(** X2: in any arithmetic, a window whose samples are all on one side of
    the sign test [x >= 0] (all pass it, or all fail it) has no zero
    crossing. *)
Theorem constant_sign_no_crossing (side : bool) (window : list num)
  (options : Options) :
  Forall (fun x => js_leb (of_Z 0) x = side) window ->
  zeroCrossings (analyzeAmplitude window options) = 0%Z.
Proof.
  intros Hside. unfold analyzeAmplitude. cbn [zeroCrossings].
  now rewrite (analyzeAmplitude_loop_same_sign Hside).
Qed.

End ZeroCrossings.

Lemma constant_sign_no_crossing_witness :
  zeroCrossings (analyzeAmplitude (N := doubles) [-1; -0.5; -2]%float no_options) = 0%Z.
Proof.
  apply (@constant_sign_no_crossing float doubles false).
  repeat constructor.
Defined.

Section ExactSilence.

Local Open Scope R_scope.

Lemma sum_of_squares_silence (n : nat) : sum_of_squares (repeat 0 n) = 0.
Proof.
  induction n as [|n IH]; simpl; [reflexivity|]. rewrite IH, Rabs_R0. lra.
Qed.

Lemma max_abs_silence (n : nat) : max_abs (repeat 0 n) = 0.
Proof.
  induction n as [|n IH]; simpl; [reflexivity|].
  rewrite IH, Rabs_R0. apply Rmax_left. lra.
Qed.

Lemma analyzeAmplitude_loop_sum_silence (n : nat) :
  forall prev st,
    acc_sum (analyzeAmplitude_loop prev (repeat 0 n) st) = acc_sum st.
Proof.
  induction n as [|n IH]; intros prev st; simpl; [reflexivity|].
  rewrite IH. simpl. rewrite Rabs_R0. lra.
Qed.

(** X3: in exact arithmetic, for a non-empty window of zeros
    [analyzeAmplitude] returns 0 in every field.  (For the empty window the
    code divides 0 by 0.) *)
Theorem silence_all_zero (n : nat) (options : Options) :
  (0 < n)%nat ->
  analyzeAmplitude (repeat 0 n) options
  = {| rms := 0; peak := 0; average := 0; dynamicRange := 0;
       crestFactor := 0; zeroCrossings := 0 |}.
Proof.
  intros _.
  assert (Hrms : rms (analyzeAmplitude (repeat 0 n) options) = 0).
  { rewrite analyzeAmplitude_rms_exact, sum_of_squares_silence.
    unfold Rdiv. rewrite Rmult_0_l. apply sqrt_0. }
  assert (Hpeak : peak (analyzeAmplitude (repeat 0 n) options) = 0)
    by (rewrite analyzeAmplitude_peak_exact; apply max_abs_silence).
  assert (Hzc : zeroCrossings (analyzeAmplitude (repeat 0 n) options) = 0%Z).
  { assert (Hside : Forall (fun x => js_leb (of_Z 0) x = true) (repeat 0 n)).
    { apply Forall_forall. intros x Hx. apply repeat_spec in Hx. subst x.
      cbn [js_leb of_Z exact]. unfold Exact.leb.
      destruct (Rle_dec 0 0); [reflexivity | lra]. }
    unfold analyzeAmplitude. cbn [zeroCrossings].
    now rewrite (analyzeAmplitude_loop_same_sign Hside). }
  assert (Havg : average (analyzeAmplitude (repeat 0 n) options) = 0).
  { unfold analyzeAmplitude. cbn [average].
    rewrite analyzeAmplitude_loop_sum_silence. cbn [acc_sum js_div of_Z exact].
    unfold Rdiv. apply Rmult_0_l. }
  unfold analyzeAmplitude in *. cbn [rms peak average zeroCrossings] in *.
  rewrite Hpeak, Hzc, Havg. cbn [js_ltb of_Z exact]. unfold Exact.ltb.
  destruct (Rlt_dec 0 0); [lra|]. f_equal. exact Hrms.
Qed.

Lemma silence_all_zero_witness :
  analyzeAmplitude (repeat 0 3) no_options
  = {| rms := 0; peak := 0; average := 0; dynamicRange := 0;
       crestFactor := 0; zeroCrossings := 0 |}.
Proof. apply (@silence_all_zero 3 no_options). lia. Defined.

End ExactSilence.

(** ** What [applyProfile] pushes, in any arithmetic *)

Section Emitted.

Context {num : Type} {N : JSNumber num}.

Local Open Scope js_scope.

Variable audioData : list num.
Variable prof : AudioProfile (num := num).
Variables sampleRate windowSize : num.

(** What the window at index [i] yields. *)
Definition window_analysis (i : num) : AmplitudeAnalysis :=
  analyzeAmplitude (slice audioData i (i + windowSize)) no_options.

(** [r] is the region the loop pushes for the window at index [i]. *)
Definition emitted_at (i : num) (r : AudioRegion) : Prop :=
  profile_matches prof (window_analysis i) (slice audioData i (i + windowSize)) = true
  /\ start r = i / sampleRate
  /\ end_ r = (i + windowSize) / sampleRate
  /\ profile r = profile_id prof
  /\ confidence r = calculateConfidence (window_analysis i) prof
  /\ data r = window_analysis i.

Lemma applyProfile_body_cases (i : num) (w : World) :
  (exists r w', applyProfile_body audioData prof sampleRate windowSize i w
                = Returns (Some r, w') /\ emitted_at i r)
  \/ (exists w', applyProfile_body audioData prof sampleRate windowSize i w
                 = Returns (None, w')).
Proof.
  unfold applyProfile_body.
  destruct (profile_matches prof _ _) eqn:Hm.
  - left. eexists _, _. split; [reflexivity|].
    unfold emitted_at, window_analysis. split; [exact Hm|].
    repeat split; reflexivity.
  - right. eexists. reflexivity.
Qed.

(** Whatever the loop returns, it has pushed regions of windows only. *)
Lemma applyProfile_loop_emitted (fuel : nat) :
  forall (i : num) (regions regions' : list AudioRegion) (w w' : World),
    applyProfile_loop fuel audioData prof sampleRate windowSize i regions w
    = Returns (regions', w') ->
    exists new,
      regions' = regions ++ new
      /\ Forall (fun r => exists j, emitted_at j r) new.
Proof.
  induction fuel as [|fuel IH]; intros i regions regions' w w' Hrun;
    cbn [applyProfile_loop] in Hrun;
    destruct (js_ltb i (js_sub (length_of audioData) windowSize)).
  - discriminate.
  - injection Hrun as <- <-. exists []. now rewrite app_nil_r.
  - unfold bind at 1 in Hrun.
    destruct (applyProfile_body_cases i w) as [(r & w1 & Hb & Hr)|(w1 & Hb)];
      rewrite Hb in Hrun; apply IH in Hrun as (new & -> & Hnew).
    + exists (r :: new). simpl. rewrite <- app_assoc. split; [reflexivity|].
      constructor; eauto.
    + exists new. split; [reflexivity | assumption].
  - injection Hrun as <- <-. exists []. now rewrite app_nil_r.
Qed.

End Emitted.

Section EffectiveWindow.

Context {num : Type} {N : JSNumber num}.

(** The window size [applyProfile] computes, in samples. *)
Definition effective_windowSize (profile : AudioProfile (num := num))
  (sampleRate : num) : num :=
  Math_floor (js_mul (or_default (windowSize (parameters profile)) (of_Z 1))
                     sampleRate).

Lemma applyProfile_emitted (audioData : list num) (profile : AudioProfile)
  (sampleRate : num) (regions : list AudioRegion) (w w' : World) :
  applyProfile audioData profile sampleRate w = Returns (regions, w') ->
  Forall (fun r => exists j,
            emitted_at audioData profile sampleRate
              (effective_windowSize profile sampleRate) j r) regions.
Proof.
  intros Hrun. apply applyProfile_loop_emitted in Hrun as (new & -> & Hnew).
  exact Hnew.
Qed.

End EffectiveWindow.

(** ** Exact arithmetic: the window grid of [applyProfile] *)

Section ExactProfile.

Local Open Scope R_scope.

Variable audioData : list R.
Variable prof : AudioProfile (num := R).
Variables sampleRate windowSize : R.



Hypothesis windowSize_pos : 1 <= windowSize.


Hypothesis sampleRate_pos : 0 < sampleRate.






End ExactProfile.

Section ExactRegions.

Local Open Scope R_scope.


Lemma bare_profile_windowSize (t : ProfileType) :
  effective_windowSize (bare_profile t) 2 = 2.
Proof.
  unfold effective_windowSize. simpl.
  replace (1 * 2) with (IZR 2) by lra. now rewrite ZfloorZ.
Qed.







End ExactRegions.

(** ** Doubles: the regions of concrete runs *)

Lemma slow_rate_window (log10 cos : float -> float) :
  PrimFloat.ltb 0 slow_rate = true
  /\ is_finite slow_rate = true
  /\ Math_floor (JSNumber := binary64 log10 cos)
       (or_default (N := binary64 log10 cos)
          (windowSize (parameters long_window_profile)) 1%float * slow_rate)%float
     = 1%float.
Proof. repeat split; vm_compute; reflexivity. Qed.




(** The same run on doubles: the windows that start at 0 s and 1 s match,
    each with confidence 1; the last window, from 2 s to 3 s, is not
    looked at. *)
Example intensity_run_binary64 (log10 cos : float -> float) :
  exists r1 r2 w',
    applyProfile (N := binary64 log10 cos) [1; 1; 1; 1; 1; 1]%float
      {| profile_id := "p"; type_ := intensity;
         parameters := {| windowSize := None; maxAmplitude := None;
                          minAmplitude := None; sensitivity := None |} |}
      2%float world_0
    = Returns ([r1; r2], w')
    /\ (start r1, end_ r1, confidence r1) = (0, 1, 1)%float
    /\ (start r2, end_ r2, confidence r2) = (1, 2, 1)%float.
Proof. eexists _, _, _. repeat split; reflexivity. Qed.


(** ** Doubles: the windows of [detectPatterns] *)

(** C3 against the code: on one second of silence at 44100 Hz with the
    default options, [detectPatterns] returns no loud section and no
    transition, and nine quiet sections, for the windows that start at
    0, 0.1, ..., 0.8 s; the window from 0.9 s to 1 s is not looked at. *)
Theorem detectPatterns_silent_second (log10 cos : float -> float) :
  detectPatterns (N := binary64 log10 cos) silent_second no_options
  = Returns {| quietSections :=
                 map silent_entry [0; 4410; 8820; 13230; 17640; 22050; 26460; 30870; 35280]%Z;
               loudSections := [];
               transitions := [];
               repetitivePatterns := [] |}.
Proof. vm_compute. reflexivity. Qed.

(** ** Doubles: [Math.max] and [Math.min] against 0 and 1 *)

Section Binary64Clamp.

Local Open Scope float_scope.

Lemma is_nan_spec (x : float) :
  is_nan x = match Prim2SF x with S754_nan => true | _ => false end.
Proof.
  unfold is_nan. rewrite eqb_spec.
  destruct (Prim2SF x) as [s|s| |s m e]; try (destruct s; reflexivity); try reflexivity.
  unfold SFeqb, SFcompare.
  rewrite Z.compare_refl, Pos.compare_cont_refl. now destruct s.
Qed.

(** A double that is NaN, a zero or negative: [Math.max(0, x)] is not [x]
    itself for these. *)
Definition below_zero (x : float) : bool :=
  match Prim2SF x with
  | S754_nan => true
  | S754_zero _ => true
  | S754_infinity s => s
  | S754_finite s _ _ => s
  end.

Lemma max_0_above (x : float) : below_zero x = false -> Binary64.max 0 x = x.
Proof.
  unfold below_zero, Binary64.max. rewrite (is_nan_spec x), ltb_spec.
  change (is_nan 0) with false. change (Prim2SF 0) with (S754_zero false).
  destruct (Prim2SF x) as [s|s| |s m e]; try discriminate; intros ->; reflexivity.
Qed.

Lemma clamp_below (x : float) :
  below_zero x = true ->
  Binary64.max 0 (Binary64.min 1 (Binary64.max 0 x)) = Binary64.max 0 (Binary64.min 1 x).
Proof.
  unfold below_zero. intros Hx.
  assert (Hmax : Binary64.max 0 x = if is_nan x then nan else 0).
  { unfold Binary64.max. rewrite (is_nan_spec x), !ltb_spec.
    change (is_nan 0) with false. change (Prim2SF 0) with (S754_zero false).
    change (get_sign 0) with false.
    destruct (Prim2SF x) as [s|s| |s m e]; try reflexivity;
      subst s; reflexivity. }
  assert (Hmin : Binary64.min 1 x = if is_nan x then nan else x).
  { unfold Binary64.min. rewrite (is_nan_spec x), !ltb_spec.
    change (is_nan 1) with false.
    change (Prim2SF 1) with (S754_finite false 4503599627370496 (-52)).
    destruct (Prim2SF x) as [s|s| |s m e]; try reflexivity;
      subst s; reflexivity. }
  rewrite Hmin, Hmax. destruct (is_nan x); [reflexivity|].
  rewrite Hmax. reflexivity.
Qed.

(** The second clamp of [calculateConfidence] absorbs the first. *)
Lemma clamp_idempotent (x : float) :
  Binary64.max 0 (Binary64.min 1 (Binary64.max 0 x)) = Binary64.max 0 (Binary64.min 1 x).
Proof.
  destruct (below_zero x) eqn:Hx.
  - now apply clamp_below.
  - now rewrite (max_0_above x Hx).
Qed.

End Binary64Clamp.

(** ** Doubles: matching a profile against a window *)

Section Binary64Profile.

Local Open Scope float_scope.

Variables log10 cos : float -> float.

(** C4, as amended: on doubles, for a quiet profile whose [maxAmplitude] [m]
    is set and is neither 0 nor NaN, the loop of [applyProfile] pushes a
    region for a window exactly when the window's [rms] is below [m], with
    confidence max(0, min(1, 1 - rms/m)); for "Quiet Section"
    ([maxAmplitude] 0.1) a window of [rms] 0.05 yields a region of
    confidence 0.5; for "High Intensity" ([minAmplitude] 0.7) a window of
    [rms] 0.35 yields none. *)
Theorem quiet_matching_and_confidence :
  (forall (audioData : list float) (profile : AudioProfile)
          (sampleRate windowSize i m : float) (w : World),
      type_ profile = quiet ->
      maxAmplitude (parameters profile) = Some m ->
      Binary64.truthy m = true ->
      applyProfile_body (N := binary64 log10 cos) audioData profile sampleRate windowSize i w
      = let a := analyzeAmplitude (N := binary64 log10 cos)
                   (slice (N := binary64 log10 cos) audioData i (i + windowSize))
                   no_options in
        if rms a <? m
        then Returns (Some {| region_id := uuids w (drawn w);
                              start := i / sampleRate;
                              end_ := (i + windowSize) / sampleRate;
                              profile := profile_id profile;
                              confidence :=
                                Binary64.max 0 (Binary64.min 1 (1 - rms a / m));
                              data := a |},
                      after_draw w)
        else Returns (None, w))
  /\ (forall (audioData : list float) (sampleRate windowSize i : float) (w : World),
       rms (analyzeAmplitude (N := binary64 log10 cos)
              (slice (N := binary64 log10 cos) audioData i (i + windowSize))
              no_options) = 0.05 ->
       exists r,
         applyProfile_body (N := binary64 log10 cos) audioData quiet_section
           sampleRate windowSize i w = Returns (Some r, after_draw w)
         /\ confidence r = 0.5)
  /\ (forall (audioData : list float) (sampleRate windowSize i : float) (w : World),
       rms (analyzeAmplitude (N := binary64 log10 cos)
              (slice (N := binary64 log10 cos) audioData i (i + windowSize))
              no_options) = 0.35 ->
       applyProfile_body (N := binary64 log10 cos) audioData high_intensity
         sampleRate windowSize i w = Returns (None, w)).
Proof.
  split; [|split].
  - intros audioData profile sampleRate windowSize i m w Hty Hmax Hm.
    unfold applyProfile_body, profile_matches, calculateConfidence.
    rewrite Hty, Hmax. cbn [or_default truthy binary64]. rewrite Hm.
    cbn [js_ltb js_sub js_div js_add Math_max Math_min of_Z binary64].
    destruct (_ <? m); [|reflexivity].
    unfold bind, uuidv4, ret, after_draw.
    change (Binary64.of_Z 0) with 0. change (Binary64.of_Z 1) with 1.
    now rewrite clamp_idempotent.
  - intros audioData sampleRate windowSize i w Hrms.
    unfold applyProfile_body, profile_matches, calculateConfidence.
    cbn [type_ parameters maxAmplitude quiet_section or_default
         js_ltb js_sub js_div js_add Math_max Math_min of_Z binary64].
    rewrite Hrms. eexists. split; reflexivity.
  - intros audioData sampleRate windowSize i w Hrms.
    unfold applyProfile_body, profile_matches.
    cbn [type_ parameters minAmplitude high_intensity or_default
         js_ltb js_sub js_div js_add Math_max Math_min of_Z binary64].
    rewrite Hrms. reflexivity.
Qed.

End Binary64Profile.

Lemma quiet_matching_and_confidence_witness :
  applyProfile_body (N := doubles) [0.05; 0.05]%float quiet_section 1%float 1%float 0%float world_0
  = let a := analyzeAmplitude (N := doubles)
               (slice (N := doubles) [0.05; 0.05]%float 0%float (0 + 1)%float) no_options in
    if (rms a <? 0.1)%float
    then Returns (Some {| region_id := uuids world_0 (drawn world_0);
                          start := (0 / 1)%float;
                          end_ := ((0 + 1) / 1)%float;
                          profile := profile_id quiet_section;
                          confidence :=
                            Binary64.max 0 (Binary64.min 1 (1 - rms a / 0.1)%float);
                          data := a |},
                  after_draw world_0)
    else Returns (None, world_0).
Proof.
  apply (proj1 (quiet_matching_and_confidence any_log10 any_cos)); reflexivity.
Defined.

(** C4 fails on the code for a quiet profile with [maxAmplitude] 0: no [rms]
    is below 0, yet the code, which reads 0 as unset and compares with 0.1,
    pushes a region (of confidence 1) for a silent window. *)
Lemma quiet_zero_maxAmplitude_matches :
  exists (profile : AudioProfile (num := float)) (audioData : list float),
    type_ profile = quiet
    /\ maxAmplitude (parameters profile) = Some 0%float
    /\ forall (log10 cos : float -> float) (w : World),
        PrimFloat.ltb
          (rms (analyzeAmplitude (N := binary64 log10 cos)
                  (slice (N := binary64 log10 cos) audioData 0%float (0 + 1)%float)
                  no_options))
          0%float = false
        /\ exists r,
            applyProfile_body (N := binary64 log10 cos) audioData profile
              1%float 1%float 0%float w = Returns (Some r, after_draw w)
            /\ confidence r = 1%float.
Proof.
  exists {| profile_id := "q0"; type_ := quiet;
            parameters := {| windowSize := None; maxAmplitude := Some 0%float;
                             minAmplitude := None; sensitivity := None |} |},
         [0; 0]%float.
  split; [reflexivity|]. split; [reflexivity|].
  intros log10 cos w. split; [vm_compute; reflexivity|].
  eexists. split; reflexivity.
Qed.

(** ** Doubles: NaN in a window *)

Section Binary64NaN.

Local Open Scope float_scope.

Lemma nan_unique (x : float) : is_nan x = true -> x = nan.
Proof.
  rewrite is_nan_spec. intros Hx. apply Prim2SF_inj.
  destruct (Prim2SF x); try discriminate. reflexivity.
Qed.

Lemma add_nan_r (x : float) : x + nan = nan.
Proof.
  apply Prim2SF_inj. rewrite add_spec. change (Prim2SF nan) with S754_nan.
  now destruct (Prim2SF x).
Qed.

Lemma div_nan_l (y : float) : nan / y = nan.
Proof.
  apply Prim2SF_inj. rewrite div_spec. change (Prim2SF nan) with S754_nan.
  reflexivity.
Qed.

Lemma max_nan_r (x : float) : Binary64.max x nan = nan.
Proof. unfold Binary64.max. change (is_nan nan) with true. now rewrite orb_true_r. Qed.

Variables log10 cos : float -> float.

(** The sums of a state in which NaN has been added. *)
Definition poisoned (st : AmplitudeSums (num := float)) : Prop :=
  acc_sum st = nan /\ acc_sumSquares st = nan /\ acc_peak st = nan.

Lemma analyzeAmplitude_loop_poisoned (window : list float) :
  forall prev st,
    poisoned st ->
    poisoned (analyzeAmplitude_loop (N := binary64 log10 cos) prev window st).
Proof.
  induction window as [|x rest IH]; intros prev st Hst; [exact Hst|].
  cbn [analyzeAmplitude_loop]. apply IH.
  destruct Hst as (Hs & Hq & Hp). unfold poisoned.
  cbn [acc_sum acc_sumSquares acc_peak js_add js_mul Math_max Math_abs binary64].
  rewrite Hs, Hq, Hp. split; [|split].
  - apply Prim2SF_inj. rewrite add_spec. reflexivity.
  - apply Prim2SF_inj. rewrite add_spec. reflexivity.
  - reflexivity.
Qed.

Lemma analyzeAmplitude_loop_NaN (window : list float) :
  Exists (fun x => is_nan x = true) window ->
  forall prev st,
    poisoned (analyzeAmplitude_loop (N := binary64 log10 cos) prev window st).
Proof.
  induction 1 as [x rest Hx|x rest _ IH]; intros prev st; cbn [analyzeAmplitude_loop].
  - apply analyzeAmplitude_loop_poisoned. apply nan_unique in Hx. subst x.
    unfold poisoned.
    cbn [acc_sum acc_sumSquares acc_peak js_add js_mul Math_max Math_abs binary64].
    change (abs nan) with nan. change (nan * nan) with nan.
    rewrite !add_nan_r, max_nan_r. auto.
  - apply IH.
Qed.

(** C5, as amended: on doubles [analyzeAmplitude] signals no error.  For the
    empty window it returns NaN as [rms] and [average] and 0 in every other
    field; for a window that holds a NaN it returns NaN as [rms], [peak] and
    [average]; for the window [1, Infinity, -2] it returns Infinity for
    all three. *)
Theorem analyzeAmplitude_never_fails :
  analyzeAmplitude (N := binary64 log10 cos) [] no_options
  = {| rms := nan; peak := 0; average := nan; dynamicRange := 0;
       crestFactor := 0; zeroCrossings := 0 |}
  /\ (forall window : list float,
        Exists (fun x => is_nan x = true) window ->
        rms (analyzeAmplitude (N := binary64 log10 cos) window no_options) = nan
        /\ peak (analyzeAmplitude (N := binary64 log10 cos) window no_options) = nan
        /\ average (analyzeAmplitude (N := binary64 log10 cos) window no_options) = nan)
  /\ (rms (analyzeAmplitude (N := binary64 log10 cos) [1; infinity; -2] no_options),
      peak (analyzeAmplitude (N := binary64 log10 cos) [1; infinity; -2] no_options),
      average (analyzeAmplitude (N := binary64 log10 cos) [1; infinity; -2] no_options))
     = (infinity, infinity, infinity).
Proof.
  split; [reflexivity|]. split; [|reflexivity].
  intros window Hnan. unfold analyzeAmplitude.
  destruct (analyzeAmplitude_loop_NaN Hnan None
              {| acc_sum := of_Z (JSNumber := binary64 log10 cos) 0;
                 acc_sumSquares := of_Z (JSNumber := binary64 log10 cos) 0;
                 acc_peak := of_Z (JSNumber := binary64 log10 cos) 0;
                 acc_zeroCrossings := 0 |}) as (Hs & Hq & Hp).
  cbn [rms peak average js_div Math_sqrt binary64].
  rewrite Hs, Hq, Hp, !div_nan_l. repeat split; reflexivity.
Qed.

End Binary64NaN.

Lemma analyzeAmplitude_never_fails_witness :
  rms (analyzeAmplitude (N := doubles) [1; nan]%float no_options) = nan
  /\ peak (analyzeAmplitude (N := doubles) [1; nan]%float no_options) = nan
  /\ average (analyzeAmplitude (N := doubles) [1; nan]%float no_options) = nan.
Proof.
  apply (proj1 (proj2 (analyzeAmplitude_never_fails any_log10 any_cos))).
  apply Exists_cons_tl, Exists_cons_hd. reflexivity.
Defined.

(** C5 fails on the code: called on the empty window, and on a window that
    holds a NaN, [analyzeAmplitude] returns a result; no error is thrown. *)
Lemma analyzeAmplitude_returns_on_empty_and_NaN :
  exists window1 window2 : list float,
    List.length window1 = 0%nat
    /\ Exists (fun x => is_nan x = true) window2
    /\ forall (log10 cos : float -> float) (w : World),
        (exists a w',
            ret (analyzeAmplitude (N := binary64 log10 cos) window1 no_options) w
            = Returns (a, w'))
        /\ (exists a w',
            ret (analyzeAmplitude (N := binary64 log10 cos) window2 no_options) w
            = Returns (a, w')).
Proof.
  exists [], [nan]. split; [reflexivity|]. split; [now constructor|].
  intros log10 cos w. split; eexists _, _; reflexivity.
Qed.

(** ** Failure: what the engine throws, in any arithmetic *)

Section Failure.

Context {num : Type} {N : JSNumber num}.




(** A turn of the loop of [applyProfile] returns: it draws an identifier
    when the window matches and leaves the world alone when it does not. *)
Lemma applyProfile_body_returns (audioData : list num) (profile : AudioProfile)
  (sampleRate windowSize i : num) (w : World) :
  exists r w', applyProfile_body audioData profile sampleRate windowSize i w
               = Returns (r, w').
Proof.
  unfold applyProfile_body. destruct (profile_matches _ _ _); eexists _, _; reflexivity.
Qed.



Variable fft : list num -> Outcome (list (num * num)).


End Failure.


(** ** Exact arithmetic: the dominant frequencies *)

Section ExactSpectrum.

Local Open Scope R_scope.







Lemma firstn_subset {A} (n : nat) (l : list A) (x : A) :
  In x (firstn n l) -> In x l.
Proof.
  revert l. induction n as [|n IH]; intros [|z l]; simpl; try tauto.
  intros [->|Hx]; [now left | right; now apply IH].
Qed.





Variable magnitudes : list R.
Variables sampleRate fftSize threshold : R.



End ExactSpectrum.



(** ** Repeated calls, in any arithmetic *)

Section Repeatable.

Context {num : Type} {N : JSNumber num}.

(** A region without its identifier. *)
Definition erase_id (r : AudioRegion (num := num)) : AudioRegion (num := num) :=
  {| region_id := EmptyString;
     start := start r;
     end_ := end_ r;
     profile := profile r;
     confidence := confidence r;
     data := data r |}.

(** Two outcomes of a computation of regions that differ in the
    identifiers drawn at most. *)
Definition same_regions (o1 o2 : Outcome (list (AudioRegion (num := num)) * World))
  : Prop :=
  match o1, o2 with
  | Returns (l1, _), Returns (l2, _) => map erase_id l1 = map erase_id l2
  | Throws e1, Throws e2 => e1 = e2
  | Diverges, Diverges => True
  | _, _ => False
  end.

(** Two outcomes of [analyzeAudio] that differ at most in the identifier
    and the timestamp of the result and in the identifiers of its regions. *)
Definition same_analysis (o1 o2 : Outcome (AudioAnalysis (num := num) * World))
  : Prop :=
  match o1, o2 with
  | Returns (r1, _), Returns (r2, _) =>
    sampleCount r1 = sampleCount r2
    /\ amplitude (analysis r1) = amplitude (analysis r2)
    /\ spectral (analysis r1) = spectral (analysis r2)
    /\ patterns (analysis r1) = patterns (analysis r2)
    /\ map erase_id (regions (analysis r1)) = map erase_id (regions (analysis r2))
  | Throws e1, Throws e2 => e1 = e2
  | Diverges, Diverges => True
  | _, _ => False
  end.

Lemma applyProfile_loop_same (fuel : nat) (audioData : list num)
  (profile : AudioProfile) (sampleRate windowSize : num) :
  forall i regions1 regions2 w1 w2,
    map erase_id regions1 = map erase_id regions2 ->
    same_regions
      (applyProfile_loop fuel audioData profile sampleRate windowSize i regions1 w1)
      (applyProfile_loop fuel audioData profile sampleRate windowSize i regions2 w2).
Proof.
  induction fuel as [|fuel IH]; intros i regions1 regions2 w1 w2 Hsame;
    cbn [applyProfile_loop]; destruct (js_ltb i _); try exact I; try exact Hsame.
  unfold bind at 1 2, applyProfile_body.
  destruct (profile_matches _ _ _); cbn [bind uuidv4 ret]; apply IH.
  - unfold push_if. rewrite !map_app, Hsame. reflexivity.
  - exact Hsame.
Qed.

Lemma detectRegions_loop_same (audioData : list num) (sampleRate : num)
  (profiles : list AudioProfile) :
  forall regions1 regions2 w1 w2,
    map erase_id regions1 = map erase_id regions2 ->
    same_regions (detectRegions_loop audioData sampleRate profiles regions1 w1)
                 (detectRegions_loop audioData sampleRate profiles regions2 w2).
Proof.
  induction profiles as [|profile rest IH]; intros regions1 regions2 w1 w2 Hsame;
    cbn [detectRegions_loop]; [exact Hsame|].
  unfold bind at 1 2.
  pose proof (@applyProfile_loop_same (S (List.length audioData)) audioData profile
                sampleRate
                (Math_floor (js_mul (or_default (windowSize (parameters profile)) (of_Z 1))
                                    sampleRate))
                (of_Z 0) [] [] w1 w2 eq_refl) as Hp.
  fold (applyProfile audioData profile sampleRate w1) in Hp.
  fold (applyProfile audioData profile sampleRate w2) in Hp.
  destruct (applyProfile audioData profile sampleRate w1) as [[l1 w1']|e1|];
    destruct (applyProfile audioData profile sampleRate w2) as [[l2 w2']|e2|];
    try contradiction; try exact Hp.
  apply IH. rewrite !map_app, Hsame, Hp. reflexivity.
Qed.

Variable fft : list num -> Outcome (list (num * num)).

(** C8, as amended: two calls of [analyzeAudio] on the same buffer and
    options end the same way, and when they return, their results have the
    same sample count, amplitude, spectral and pattern analyses, and the same
    regions but for the regions' identifiers; the identifier and timestamp of
    the result and the identifier of each region are drawn anew. *)
Theorem analyzeAudio_repeatable (audioData : list num) (options : Options)
  (w1 w2 : World) :
  same_analysis (analyzeAudio fft audioData options w1)
                (analyzeAudio fft audioData options w2).
Proof.
  unfold analyzeAudio, try_catch, bind, uuidv4, Date_toISOString, ret, lift, throw.
  destruct (analyzeSpectral fft audioData options) as [s|e|]; cbn; auto.
  destruct (detectPatterns audioData options) as [p|e|]; cbn; auto.
  unfold detectRegions.
  match goal with
  | |- context [detectRegions_loop ?a ?s ?p [] ?w] =>
    pose proof (@detectRegions_loop_same a s p [] []
                  w (after_draw w2) eq_refl) as Hr
  end.
  unfold same_regions in Hr.
  repeat match goal with
         | H : context [match ?o with _ => _ end] |- _ => destruct o as [[? ?]|?|]
         end; try contradiction; cbn; auto.
  now subst.
Qed.

End Repeatable.

(** C8 fails on the code: two calls in a row on the same silent buffer and
    the same options return different [regions], since a region carries an
    identifier drawn from [uuidv4]. *)
Lemma analyzeAudio_regions_differ :
  exists (r1 r2 : AudioAnalysis (num := float)) (w1 w2 : World),
    analyzeAudio (N := doubles) fft_of_silence silence_21 quiet_options world_0
    = Returns (r1, w1)
    /\ analyzeAudio (N := doubles) fft_of_silence silence_21 quiet_options w1
       = Returns (r2, w2)
    /\ map region_id (regions (analysis r1)) = ["1"; "2"]%string
    /\ map region_id (regions (analysis r2)) = ["4"; "5"]%string
    /\ regions (analysis r1) <> regions (analysis r2).
Proof.
  eexists _, _, _, _. split; [vm_compute; reflexivity|].
  split; [vm_compute; reflexivity|].
  split; [reflexivity|]. split; [reflexivity|].
  intros Heq. apply (f_equal (map region_id)) in Heq. vm_compute in Heq. discriminate.
Qed.

(** ** Doubles: the sign of a rounded result *)

Section Binary64Shape.

(** A float that is not NaN and has sign [s]. *)
Definition signed (s : bool) (x : spec_float) : Prop :=
  match x with
  | S754_nan => False
  | S754_zero s' | S754_infinity s' | S754_finite s' _ _ => s' = s
  end.











End Binary64Shape.


(** ** Doubles: the confidence of a region *)

Section Binary64Confidence.

Local Open Scope float_scope.

Lemma signed_not_nan (s : bool) (x : float) :
  signed s (Prim2SF x) -> is_nan x = false.
Proof. rewrite is_nan_spec. now destruct (Prim2SF x). Qed.













Variables log10 cos : float -> float.


End Binary64Confidence.




(** ** The identifiers of regions, in any arithmetic *)

(** The world after [n] draws of an identifier. *)
Definition after_draws (n : nat) (w : World) : World :=
  {| uuids := uuids w; drawn := n + drawn w; clock := clock w |}.

(** The identifiers the next [n] draws give. *)
Definition next_uuids (w : World) (n : nat) : list string :=
  map (uuids w) (seq (drawn w) n).

Lemma after_draws_0 (w : World) : after_draws 0 w = w.
Proof. now destruct w. Qed.

Lemma after_draws_S (n : nat) (w : World) :
  after_draws n (after_draw w) = after_draws (S n) w.
Proof. unfold after_draws, after_draw. simpl. f_equal. lia. Qed.

Lemma after_draws_add (n m : nat) (w : World) :
  after_draws m (after_draws n w) = after_draws (n + m) w.
Proof. unfold after_draws. simpl. f_equal. lia. Qed.

Lemma next_uuids_add (n m : nat) (w : World) :
  next_uuids w n ++ next_uuids (after_draws n w) m = next_uuids w (n + m).
Proof.
  unfold next_uuids, after_draws. simpl. rewrite seq_app, map_app.
  now rewrite (Nat.add_comm n (drawn w)).
Qed.

Section Identifiers.

Context {num : Type} {N : JSNumber num}.

Lemma applyProfile_loop_draws (fuel : nat) (audioData : list num)
  (prof : AudioProfile) (sampleRate windowSize : num) :
  forall i regions regions' w w',
    applyProfile_loop fuel audioData prof sampleRate windowSize i regions w
    = Returns (regions', w') ->
    exists new,
      regions' = regions ++ new
      /\ map region_id new = next_uuids w (List.length new)
      /\ w' = after_draws (List.length new) w.
Proof.
  induction fuel as [|fuel IH]; intros i regions regions' w w' Hrun;
    cbn [applyProfile_loop] in Hrun;
    destruct (js_ltb i (js_sub (length_of audioData) windowSize)).
  - discriminate.
  - injection Hrun as <- <-. exists []. rewrite app_nil_r, after_draws_0. auto.
  - unfold bind at 1, applyProfile_body in Hrun.
    destruct (profile_matches _ _ _); cbn [bind uuidv4 ret] in Hrun;
      apply IH in Hrun as (new & -> & Hids & ->).
    + eexists (_ :: new). cbn [push_if]. rewrite <- app_assoc. split; [reflexivity|].
      cbn [map List.length region_id]. rewrite Hids, after_draws_S.
      split; reflexivity.
    + exists new. auto.
  - injection Hrun as <- <-. exists []. rewrite app_nil_r, after_draws_0. auto.
Qed.

Lemma applyProfile_draws (audioData : list num) (prof : AudioProfile)
  (sampleRate : num) (regions : list AudioRegion) (w w' : World) :
  applyProfile audioData prof sampleRate w = Returns (regions, w') ->
  map region_id regions = next_uuids w (List.length regions)
  /\ w' = after_draws (List.length regions) w.
Proof.
  intros Hrun. apply applyProfile_loop_draws in Hrun as (new & -> & Hids & ->).
  auto.
Qed.

Lemma detectRegions_loop_draws (audioData : list num) (sampleRate : num)
  (profiles : list AudioProfile) :
  forall regions regions' w w',
    detectRegions_loop audioData sampleRate profiles regions w
    = Returns (regions', w') ->
    exists new,
      regions' = regions ++ new
      /\ map region_id new = next_uuids w (List.length new)
      /\ w' = after_draws (List.length new) w.
Proof.
  induction profiles as [|prof rest IH]; intros regions regions' w w' Hrun;
    cbn [detectRegions_loop] in Hrun.
  - injection Hrun as <- <-. exists []. rewrite app_nil_r, after_draws_0. auto.
  - unfold bind at 1 in Hrun.
    destruct (applyProfile audioData prof sampleRate w) as [[rs w1]|e|] eqn:Hp;
      try discriminate.
    apply applyProfile_draws in Hp as (Hids1 & ->).
    apply IH in Hrun as (new & -> & Hids & ->).
    exists (rs ++ new). rewrite <- app_assoc. split; [reflexivity|].
    rewrite map_app, length_app, Hids1, Hids, next_uuids_add, after_draws_add.
    auto.
Qed.

(** X4: in any arithmetic, when [detectRegions] returns, it has drawn one
    identifier per region and nothing else: the identifiers of the regions
    are, in order, the next identifiers of [uuidv4], so they differ from
    each other when those do. *)
Theorem detectRegions_draws (audioData : list num) (options : Options)
  (regions : list AudioRegion) (w w' : World) :
  detectRegions audioData options w = Returns (regions, w') ->
  map region_id regions = next_uuids w (List.length regions)
  /\ w' = after_draws (List.length regions) w
  /\ ((forall m n, uuids w m = uuids w n -> m = n) ->
      NoDup (map region_id regions)).
Proof.
  intros Hrun. apply detectRegions_loop_draws in Hrun as (new & -> & Hids & ->).
  cbn [app]. split; [exact Hids|]. split; [reflexivity|].
  intros Hinj. rewrite Hids. apply NoDup_map_NoDup_ForallPairs; [|apply seq_NoDup].
  intros m n _ _. apply Hinj.
Qed.

Variable fft : list num -> Outcome (list (num * num)).

(** X5: in any arithmetic, a result of [analyzeAudio] carries the first
    identifier drawn, the time of the clock, the length of the buffer as
    [sampleCount] and what the four analyses return for the buffer and the
    options; its regions carry the identifiers drawn after the first, and
    nothing else is drawn. *)
Theorem analyzeAudio_result (audioData : list num) (options : Options)
  (results : AudioAnalysis) (w w' : World) :
  analyzeAudio fft audioData options w = Returns (results, w') ->
  analysis_id results = uuids w (drawn w)
  /\ timestamp results = clock w
  /\ sampleCount results = Z.of_nat (List.length audioData)
  /\ amplitude (analysis results) = analyzeAmplitude audioData options
  /\ analyzeSpectral fft audioData options = Returns (spectral (analysis results))
  /\ detectPatterns audioData options = Returns (patterns (analysis results))
  /\ detectRegions audioData options (after_draw w)
     = Returns (regions (analysis results), w')
  /\ map region_id (regions (analysis results))
     = next_uuids (after_draw w) (List.length (regions (analysis results)))
  /\ w' = after_draws (S (List.length (regions (analysis results)))) w.
Proof.
  unfold analyzeAudio, try_catch, bind, uuidv4, Date_toISOString, ret, lift, throw.
  destruct (analyzeSpectral fft audioData options) as [s|e|]; try discriminate.
  destruct (detectPatterns audioData options) as [p|e|]; try discriminate.
  destruct (detectRegions audioData options (after_draw w)) as [[rs w1]|e|] eqn:Hr;
    try discriminate.
  intros [= <- <-]. cbn.
  apply detectRegions_loop_draws in Hr as (new & -> & Hids & ->). cbn [app].
  rewrite after_draws_S. repeat split; auto.
Qed.

End Identifiers.

Lemma detectRegions_draws_witness :
  exists regions w',
    detectRegions (N := doubles) silence_21 quiet_options world_0
    = Returns (regions, w')
    /\ map region_id regions = next_uuids world_0 (List.length regions).
Proof.
  eexists _, _. split; [vm_compute; reflexivity|].
  eapply (@detectRegions_draws float doubles silence_21 quiet_options _ world_0 _).
  vm_compute. reflexivity.
Defined.

Lemma analyzeAudio_result_witness :
  exists results w',
    analyzeAudio (N := doubles) fft_of_silence silence_21 quiet_options world_0
    = Returns (results, w')
    /\ analysis_id results = uuids world_0 (drawn world_0).
Proof.
  eexists _, _. split; [vm_compute; reflexivity|].
  eapply (@analyzeAudio_result float doubles fft_of_silence silence_21
            quiet_options _ world_0 _).
  vm_compute. reflexivity.
Defined.

(** ** Profiles one after the other, in any arithmetic *)

Section ProfileList.

Context {num : Type} {N : JSNumber num}.

Local Open Scope engine_scope.

(** The regions pushed so far stay in front of what the loop adds. *)
Lemma detectRegions_loop_from (audioData : list num) (sampleRate : num)
  (profiles : list AudioProfile) :
  forall regions w,
    detectRegions_loop audioData sampleRate profiles regions w
    = (new <- detectRegions_loop audioData sampleRate profiles [] ;;
       ret (regions ++ new)) w.
Proof.
  induction profiles as [|prof rest IH]; intros regions w;
    cbn [detectRegions_loop].
  - unfold bind, ret. now rewrite app_nil_r.
  - unfold bind at 1 2 3.
    destruct (applyProfile audioData prof sampleRate w) as [[rs w1]|e|];
      try reflexivity.
    rewrite (IH (regions ++ rs)), (IH ([] ++ rs)). unfold bind, ret.
    destruct (detectRegions_loop audioData sampleRate rest [] w1) as [[new w2]|e|];
      try reflexivity.
    now rewrite app_assoc.
Qed.

Lemma bind_assoc_at {A B C} (m : M A) (k : A -> M B) (h : B -> M C) (w : World) :
  bind (bind m k) h w = bind m (fun a => bind (k a) h) w.
Proof. unfold bind. destruct (m w) as [[a w1]|e|]; reflexivity. Qed.

Lemma bind_ext_at {A B} (m : M A) (k k' : A -> M B) (w : World) :
  (forall a w', k a w' = k' a w') -> bind m k w = bind m k' w.
Proof. intros Hk. unfold bind. destruct (m w) as [[a w1]|e|]; auto. Qed.

Lemma detectRegions_loop_app (audioData : list num) (sampleRate : num)
  (first second : list AudioProfile) :
  forall regions w,
    detectRegions_loop audioData sampleRate (first ++ second) regions w
    = (found <- detectRegions_loop audioData sampleRate first regions ;;
       detectRegions_loop audioData sampleRate second found) w.
Proof.
  induction first as [|prof rest IH]; intros regions w; cbn [detectRegions_loop app].
  - reflexivity.
  - unfold bind at 1. rewrite (bind_assoc_at _ _ _ w). unfold bind at 1.
    destruct (applyProfile audioData prof sampleRate w) as [[rs w1]|e|];
      try reflexivity.
    apply IH.
Qed.

(** X6: in any arithmetic, [detectRegions] for a list of profiles followed
    by another does what [detectRegions] for the first list and then
    [detectRegions] for the second do: it returns the regions of the first
    followed by those of the second, and ends as the first of the two that
    does not return. *)
Theorem detectRegions_app (audioData : list num) (options : Options)
  (first second : list AudioProfile) (w : World) :
  detectRegions audioData (with_profiles options (first ++ second)) w
  = (regions1 <- detectRegions audioData (with_profiles options first) ;;
     regions2 <- detectRegions audioData (with_profiles options second) ;;
     ret (regions1 ++ regions2)) w.
Proof.
  unfold detectRegions. cbn [with_profiles profiles sampleRate default_to].
  rewrite detectRegions_loop_app. apply bind_ext_at.
  intros regions1 w1. apply detectRegions_loop_from.
Qed.

Lemma detectRegions_loop_profiles (audioData : list num) (sampleRate : num)
  (profiles : list AudioProfile) :
  forall regions regions' w w',
    detectRegions_loop audioData sampleRate profiles regions w
    = Returns (regions', w') ->
    exists new,
      regions' = regions ++ new
      /\ Forall (fun r => exists p j,
                   In p profiles
                   /\ emitted_at audioData p sampleRate
                        (effective_windowSize p sampleRate) j r) new.
Proof.
  induction profiles as [|prof rest IH]; intros regions regions' w w' Hrun;
    cbn [detectRegions_loop] in Hrun.
  - injection Hrun as <- <-. exists []. now rewrite app_nil_r.
  - unfold bind at 1 in Hrun.
    destruct (applyProfile audioData prof sampleRate w) as [[rs w1]|e|] eqn:Hp;
      try discriminate.
    apply applyProfile_emitted in Hp.
    apply IH in Hrun as (new & -> & Hnew).
    exists (rs ++ new). rewrite <- app_assoc. split; [reflexivity|].
    apply Forall_app. split.
    + apply Forall_impl with (2 := Hp). intros r (j & Hr).
      exists prof, j. split; [now left | exact Hr].
    + apply Forall_impl with (2 := Hnew). intros r (p & j & Hin & Hr).
      exists p, j. split; [now right | exact Hr].
Qed.

(** X7: in any arithmetic, every region [detectRegions] returns was made
    for a window of the buffer and one of the profiles of the options: it
    names that profile, its [data] is the amplitude analysis of the window,
    its confidence is what [calculateConfidence] gives for the two, and the
    window matches the profile. *)
Theorem detectRegions_regions (audioData : list num) (options : Options)
  (regions : list AudioRegion) (w w' : World) :
  detectRegions audioData options w = Returns (regions, w') ->
  Forall (fun r =>
            exists p i,
              let windowSize :=
                effective_windowSize p (default_to (sampleRate options) (of_Z 44100)) in
              let window := slice audioData i (js_add i windowSize) in
              In p (default_to (profiles options) [])
              /\ profile r = profile_id p
              /\ data r = analyzeAmplitude window no_options
              /\ confidence r = calculateConfidence (data r) p
              /\ profile_matches p (data r) window = true)
         regions.
Proof.
  intros Hrun. apply detectRegions_loop_profiles in Hrun as (new & -> & Hnew).
  cbn [app]. apply Forall_impl with (2 := Hnew).
  intros r (p & j & Hin & Hm & _ & _ & Hp & Hc & Hd).
  exists p, j. cbn zeta. unfold window_analysis in *.
  rewrite Hd. repeat split; auto.
Qed.

(** ** Profiles that match nothing *)

Lemma applyProfile_loop_custom (fuel : nat) (audioData : list num)
  (prof : AudioProfile) (sampleRate windowSize : num) :
  type_ prof = custom ->
  forall i regions regions' w w',
    applyProfile_loop fuel audioData prof sampleRate windowSize i regions w
    = Returns (regions', w') ->
    regions' = regions /\ w' = w.
Proof.
  intros Hty.
  induction fuel as [|fuel IH]; intros i regions regions' w w' Hrun;
    cbn [applyProfile_loop] in Hrun;
    destruct (js_ltb i (js_sub (length_of audioData) windowSize)).
  - discriminate.
  - now injection Hrun as <- <-.
  - unfold bind at 1, applyProfile_body, profile_matches in Hrun.
    rewrite Hty in Hrun. cbn [bind ret] in Hrun. now apply IH in Hrun.
  - now injection Hrun as <- <-.
Qed.

(** X8: in any arithmetic, a profile of type [custom] gives no region,
    whatever the buffer: when [applyProfile] returns for it, it returns the
    empty list and has drawn no identifier. *)
Theorem custom_profile_no_region (audioData : list num) (prof : AudioProfile)
  (sampleRate : num) (regions : list AudioRegion) (w w' : World) :
  type_ prof = custom ->
  applyProfile audioData prof sampleRate w = Returns (regions, w') ->
  regions = [] /\ w' = w.
Proof.
  intros Hty Hrun. now apply applyProfile_loop_custom in Hrun.
Qed.

End ProfileList.

Lemma detectRegions_regions_witness :
  exists regions w',
    detectRegions (N := doubles) silence_21 quiet_options world_0
    = Returns (regions, w')
    /\ Forall (fun r => exists p i,
                 In p [quiet_section]
                 /\ profile r = profile_id p
                 /\ data r
                    = analyzeAmplitude (N := doubles)
                        (slice (N := doubles) silence_21 i
                           (i + effective_windowSize (N := doubles) p 10)%float)
                        no_options
                 /\ confidence r = calculateConfidence (N := doubles) (data r) p
                 /\ profile_matches (N := doubles) p (data r)
                      (slice (N := doubles) silence_21 i
                         (i + effective_windowSize (N := doubles) p 10)%float)
                    = true)
         regions.
Proof.
  eexists _, _. split; [vm_compute; reflexivity|].
  eapply (@detectRegions_regions float doubles silence_21 quiet_options _ world_0 _).
  vm_compute. reflexivity.
Defined.

(** A profile of type [custom] with the parameters of "Quiet Section". *)
Definition custom_section : AudioProfile (num := float) :=
  {| profile_id := "custom-1"; type_ := custom;
     parameters := parameters quiet_section |}.

Lemma custom_profile_no_region_witness :
  applyProfile (N := doubles) silence_21 custom_section 10%float world_0
  = Returns ([], world_0).
Proof.
  destruct (applyProfile (N := doubles) silence_21 custom_section 10%float world_0)
    as [[regions w']|e|] eqn:Hrun; try (vm_compute in Hrun; discriminate).
  destruct (@custom_profile_no_region float doubles silence_21 custom_section
              10%float regions world_0 w' eq_refl Hrun) as [-> ->].
  reflexivity.
Defined.

(** ** Counting and sorting windows, in any arithmetic *)

Section Counting.

Context {num : Type} {N : JSNumber num}.

Lemma analyzeAmplitude_loop_zeroCrossings (window : list num) :
  forall prev st,
    (acc_zeroCrossings st
     <= acc_zeroCrossings (analyzeAmplitude_loop prev window st)
     <= acc_zeroCrossings st
        + Z.of_nat (match prev with
                    | Some _ => List.length window
                    | None => Nat.pred (List.length window)
                    end))%Z.
Proof.
  induction window as [|x rest IH]; intros prev st.
  - cbn [analyzeAmplitude_loop]. destruct prev; simpl; lia.
  - cbn [analyzeAmplitude_loop].
    match goal with
    | |- context [analyzeAmplitude_loop (Some x) rest ?st'] =>
      specialize (IH (Some x) st')
    end.
    remember (analyzeAmplitude_loop (Some x) rest _) as r eqn:Hr. clear Hr.
    cbn [acc_zeroCrossings] in IH. cbn [List.length Nat.pred].
    destruct prev as [p|].
    + destruct (xorb _ _) in IH; lia.
    + lia.
Qed.

(** X9: in any arithmetic, the number of zero crossings [analyzeAmplitude]
    counts is at least 0 and at most the number of pairs of neighbours in
    the window, its length less one. *)
Theorem zeroCrossings_range (window : list num) (options : Options) :
  (0 <= zeroCrossings (analyzeAmplitude window options)
   <= Z.of_nat (Nat.pred (List.length window)))%Z.
Proof.
  unfold analyzeAmplitude. cbn [zeroCrossings].
  match goal with
  | |- context [analyzeAmplitude_loop None window ?st] =>
    pose proof (analyzeAmplitude_loop_zeroCrossings window None st) as H
  end.
  cbn [acc_zeroCrossings] in H. lia.
Qed.

(** The entry of [quietSections] or [loudSections] for the window at
    index [i]. *)
Definition section_at (audioData : list num) (sampleRate windowSize i : num)
  : SectionEntry :=
  {| section_start := js_div i sampleRate;
     section_end := js_div (js_add i windowSize) sampleRate;
     section_rms := calculateRMS (slice audioData i (js_add i windowSize)) |}.

Lemma detectPatterns_loop_sorts (fuel : nat) (audioData : list num)
  (sampleRate threshold windowSize : num) (Q L : SectionEntry -> Prop) :
  (forall i, js_ltb (section_rms (section_at audioData sampleRate windowSize i))
               threshold = true ->
             Q (section_at audioData sampleRate windowSize i)) ->
  (forall i, js_ltb (section_rms (section_at audioData sampleRate windowSize i))
               threshold = false ->
             js_ltb (decimal 7 10)
               (section_rms (section_at audioData sampleRate windowSize i)) = true ->
             L (section_at audioData sampleRate windowSize i)) ->
  forall i quiet_ loud sections,
    detectPatterns_loop fuel audioData sampleRate threshold windowSize i quiet_ loud
    = Returns sections ->
    Forall Q quiet_ -> Forall L loud ->
    Forall Q (fst sections) /\ Forall L (snd sections).
Proof.
  intros HQ HL.
  induction fuel as [|fuel IH]; intros i quiet_ loud sections Hrun Hq Hl;
    cbn [detectPatterns_loop] in Hrun;
    destruct (js_ltb i (js_sub (length_of audioData) windowSize)).
  - discriminate.
  - injection Hrun as <-. auto.
  - fold (section_at audioData sampleRate windowSize i) in Hrun.
    destruct (js_ltb (calculateRMS _) threshold) eqn:Hquiet.
    + apply IH in Hrun; auto. apply Forall_app. split; [exact Hq|].
      constructor; [|constructor]. now apply HQ.
    + destruct (js_ltb (decimal 7 10) (calculateRMS _)) eqn:Hloud.
      * apply IH in Hrun; auto. apply Forall_app. split; [exact Hl|].
        constructor; [|constructor]. now apply HL.
      * apply IH in Hrun; auto.
  - injection Hrun as <-. auto.
Qed.

(** X10: in any arithmetic, when [detectPatterns] returns, every entry of
    [quietSections] has its [rms] below the threshold of the options (0.1
    when they have none), every entry of [loudSections] has its [rms] above
    0.7 and not below the threshold, so no entry is in both lists; and the
    [rms] of an entry is [calculateRMS] of a window of the buffer. *)
Theorem detectPatterns_sections (audioData : list num) (options : Options)
  (patterns : Patterns) :
  detectPatterns audioData options = Returns patterns ->
  let threshold_ := default_to (threshold options) (decimal 1 10) in
  let is_window (entry : SectionEntry) :=
    exists first last,
      section_rms entry = calculateRMS (slice audioData first last) in
  Forall (fun entry =>
            js_ltb (section_rms entry) threshold_ = true /\ is_window entry)
         (quietSections patterns)
  /\ Forall (fun entry =>
               js_ltb (section_rms entry) threshold_ = false
               /\ js_ltb (decimal 7 10) (section_rms entry) = true
               /\ is_window entry)
            (loudSections patterns)
  /\ (forall entry, In entry (quietSections patterns) ->
                    In entry (loudSections patterns) -> False)
  /\ repetitivePatterns patterns = [].
Proof.
  unfold detectPatterns. intros Hrun. cbn zeta.
  destruct (detectPatterns_loop _ _ _ _ _ _ _ _) as [sections| |] eqn:Hloop;
    cbn [obind] in Hrun; try discriminate.
  destruct (detectTransitions _ _ _) as [ts| |]; cbn [obind] in Hrun;
    try discriminate.
  injection Hrun as <-. cbn [quietSections loudSections repetitivePatterns].
  apply (@detectPatterns_loop_sorts _ _ _ _ _
           (fun entry => js_ltb (section_rms entry)
                           (default_to (threshold options) (decimal 1 10)) = true
                         /\ exists first last,
                              section_rms entry
                              = calculateRMS (slice audioData first last))
           (fun entry => js_ltb (section_rms entry)
                           (default_to (threshold options) (decimal 1 10)) = false
                         /\ js_ltb (decimal 7 10) (section_rms entry) = true
                         /\ exists first last,
                              section_rms entry
                              = calculateRMS (slice audioData first last)))
    in Hloop.
  - destruct Hloop as (Hq & Hl). split; [exact Hq|]. split; [exact Hl|].
    split; [|reflexivity].
    intros entry Hinq Hinl. rewrite Forall_forall in Hq, Hl.
    destruct (Hq entry Hinq) as (Ht & _). destruct (Hl entry Hinl) as (Hf & _).
    congruence.
  - intros i Hi. split; [exact Hi|]. eexists _, _. reflexivity.
  - intros i Hi Hl. split; [exact Hi|]. split; [exact Hl|].
    eexists _, _. reflexivity.
  - constructor.
  - constructor.
Qed.

End Counting.

Lemma detectPatterns_sections_witness :
  exists patterns,
    detectPatterns (N := doubles) silence_21 quiet_options = Returns patterns
    /\ forall entry, In entry (quietSections patterns) ->
                     In entry (loudSections patterns) -> False.
Proof.
  eexists. split; [vm_compute; reflexivity|].
  eapply (@detectPatterns_sections float doubles silence_21 quiet_options _).
  vm_compute. reflexivity.
Defined.

(** ** Exact arithmetic: how many windows the loops look at *)

Section ExactWindows.

Local Open Scope R_scope.

Lemma length_of_exact {A} (l : list A) : length_of l = INR (List.length l).
Proof. unfold length_of. cbn [of_Z exact]. now rewrite <- INR_IZR_INZ. Qed.


(** The regions the loop adds from index [i] on are fewer than the
    windows that fit into the rest of the buffer. *)
Lemma applyProfile_loop_count (audioData : list R) (prof : AudioProfile)
  (sampleRate windowSize : R) (fuel : nat) :
  1 <= windowSize ->
  forall (i : R) (regions : list AudioRegion) (w : World),
    INR (List.length audioData) - i < INR fuel ->
    exists new w',
      applyProfile_loop fuel audioData prof sampleRate windowSize i regions w
      = Returns (regions ++ new, w')
      /\ (new = []
          \/ INR (List.length new) * windowSize < INR (List.length audioData) - i).
Proof.
  intros Hws.
  induction fuel as [|fuel IH]; intros i regions w Hfuel.
  - exists [], w. cbn [applyProfile_loop js_ltb js_sub exact]. unfold Exact.ltb.
    rewrite length_of_exact. simpl INR in Hfuel.
    destruct (Rlt_dec i (INR (List.length audioData) - windowSize)); [lra|].
    rewrite app_nil_r. auto.
  - cbn [applyProfile_loop js_ltb js_sub js_add exact]. unfold Exact.ltb.
    rewrite length_of_exact.
    destruct (Rlt_dec i (INR (List.length audioData) - windowSize)) as [Hlt|Hge].
    + rewrite S_INR in Hfuel. unfold bind at 1.
      destruct (applyProfile_body_returns audioData prof sampleRate windowSize i w)
        as (r & w1 & ->).
      destruct (IH (i + windowSize) (push_if regions r) w1)
        as (new & w' & Heq & Hcount); [lra|].
      rewrite Heq. destruct r as [r|]; cbn [push_if].
      * exists (r :: new), w'. rewrite <- app_assoc. split; [reflexivity|].
        right. change (List.length (r :: new)) with (S (List.length new)).
        rewrite S_INR. destruct Hcount as [->|Hcount]; simpl INR; lra.
      * exists new, w'. split; [reflexivity|].
        destruct Hcount as [->|Hcount]; [now left | right; lra].
    + exists [], w. rewrite app_nil_r. auto.
Qed.

(** X11: in exact arithmetic, with a window of at least one sample,
    [applyProfile] returns, and the windows of its regions do not fill the
    buffer: regions times window size is less than the number of samples.
    So a buffer of one window gives no region, and the last full window of
    a buffer of whole windows is left out. *)
Theorem applyProfile_region_count (audioData : list R) (profile : AudioProfile)
  (sampleRate : R) (w : World) :
  1 <= effective_windowSize profile sampleRate ->
  exists regions w',
    applyProfile audioData profile sampleRate w = Returns (regions, w')
    /\ (regions = []
        \/ INR (List.length regions) * effective_windowSize profile sampleRate
           < INR (List.length audioData)).
Proof.
  intros Hws.
  destruct (@applyProfile_loop_count audioData profile sampleRate
              (effective_windowSize profile sampleRate)
              (S (List.length audioData)) Hws 0 [] w)
    as (new & w' & Heq & Hcount).
  - rewrite S_INR. lra.
  - exists new, w'. split; [exact Heq|].
    destruct Hcount as [->|Hcount]; [now left | right; lra].
Qed.








End ExactWindows.

Lemma applyProfile_region_count_witness :
  exists regions w',
    applyProfile six_samples (bare_profile intensity) 2%R world_0
    = Returns (regions, w')
    /\ (regions = []
        \/ (INR (List.length regions) * effective_windowSize (bare_profile intensity) 2
            < INR (List.length six_samples))%R).
Proof.
  apply (@applyProfile_region_count six_samples (bare_profile intensity) 2%R world_0).
  rewrite bare_profile_windowSize. lra.
Defined.







(** The same on doubles: a window of half a sample, a loop that does not
    end, whatever the platform's [Math.log10] and [Math.cos]. *)
Example short_window_diverges_binary64 (log10 cos : float -> float) (w : World) :
  detectPatterns (N := binary64 log10 cos) [0; 0; 0]%float
    {| opt_windowSize := None; fftSize := None; sampleRate := Some 5%float;
       threshold := None; minDuration := None; profiles := None |}
  = Diverges
  /\ applyProfile (N := binary64 log10 cos) [0; 0; 0]%float
       {| profile_id := "short"; type_ := quiet;
          parameters := {| windowSize := Some 0.01%float; maxAmplitude := None;
                           minAmplitude := None; sensitivity := None |} |}
       50%float w
     = Diverges.
Proof. split; reflexivity. Qed.

(** ** Exact arithmetic: the statistics of a window *)

Section ExactStatistics.

Local Open Scope R_scope.

(** The sum of [f] over a window. *)
Fixpoint total (f : R -> R) (window : list R) : R :=
  match window with
  | [] => 0
  | x :: rest => f x + total f rest
  end.













(** The mean [calculateVariance] computes. *)
Definition mean (data : list R) : R := total (fun x => x) data / INR (List.length data).






End ExactStatistics.






(** ** Exact arithmetic: the Hanning window *)

Section ExactWindowing.

Local Open Scope R_scope.

(** The factor of the sample at index [i] in a buffer of length [len]. *)
Definition windowValue (len : R) (i : Z) : R :=
  5 / 10 * (1 - cos ((2 * PI * IZR i) / (len - 1))).

Lemma windowValue_range (len : R) (i : Z) : 0 <= windowValue len i <= 1.
Proof.
  unfold windowValue.
  pose proof (COS_bound ((2 * PI * IZR i) / (len - 1))) as (Hlo & Hhi). lra.
Qed.

Lemma applyWindow_loop_nth (len : R) (rest : list R) :
  forall i k,
    (k < List.length rest)%nat ->
    nth k (applyWindow_loop len i rest) 0
    = nth k rest 0 * windowValue len (i + Z.of_nat k).
Proof.
  induction rest as [|x rest IH]; intros i k Hk; [simpl in Hk; lia|].
  cbn [applyWindow_loop]. destruct k as [|k].
  - cbn [nth]. unfold decimal, windowValue.
    cbn [js_mul js_sub js_div of_Z fround Math_cos Math_PI exact Z.of_nat].
    now rewrite Z.add_0_r.
  - cbn [nth]. rewrite IH by (simpl in Hk; lia). do 2 f_equal. lia.
Qed.

Lemma applyWindow_loop_attenuates (len : R) (rest : list R) :
  forall i,
    Forall2 (fun windowed sample => Rabs windowed <= Rabs sample)
            (applyWindow_loop len i rest) rest.
Proof.
  induction rest as [|x rest IH]; intros i; cbn [applyWindow_loop]; constructor.
  - unfold decimal. cbn [js_mul js_sub js_div of_Z fround Math_cos Math_PI exact].
    fold (windowValue len i).
    pose proof (windowValue_range len i) as (Hlo & Hhi).
    rewrite Rabs_mult, (Rabs_pos_eq (windowValue len i)) by exact Hlo.
    pose proof (Rabs_pos x). nra.
  - apply IH.
Qed.

(** X18: in exact arithmetic, for a buffer of two samples or more
    [applyWindow] returns a buffer of the same length in which no sample is
    larger in absolute value than the sample it comes from, and whose first
    and last samples are 0. *)
Theorem applyWindow_exact (data : list R) :
  (2 <= List.length data)%nat ->
  List.length (applyWindow data) = List.length data
  /\ Forall2 (fun windowed sample => Rabs windowed <= Rabs sample)
             (applyWindow data) data
  /\ nth 0 (applyWindow data) 0 = 0
  /\ nth (List.length data - 1) (applyWindow data) 0 = 0.
Proof.
  intros Hlen. unfold applyWindow.
  pose proof (applyWindow_loop_attenuates (length_of data) data 0) as Hall.
  split; [symmetry; symmetry; apply (Forall2_length Hall)|].
  split; [exact Hall|].
  rewrite !applyWindow_loop_nth by lia. rewrite length_of_exact.
  unfold windowValue. split.
  - cbn [Z.of_nat Z.add]. replace (2 * PI * 0 / (INR (List.length data) - 1)) with 0.
    + rewrite cos_0. lra.
    + unfold Rdiv. lra.
  - rewrite Z.add_0_l, <- INR_IZR_INZ, minus_INR by lia. simpl INR.
    assert (Hn : 2 <= INR (List.length data)).
    { change 2 with (INR 2). apply le_INR. exact Hlen. }
    replace (2 * PI * (INR (List.length data) - 1) / (INR (List.length data) - 1))
      with (2 * PI) by (field; lra).
    rewrite cos_2PI. lra.
Qed.

End ExactWindowing.

Lemma applyWindow_exact_witness :
  List.length (applyWindow [1; -1; 1]%R) = 3%nat
  /\ Forall2 (fun windowed sample => (Rabs windowed <= Rabs sample)%R)
             (applyWindow [1; -1; 1]%R) [1; -1; 1]%R
  /\ nth 0 (applyWindow [1; -1; 1]%R) 0%R = 0%R
  /\ nth 2 (applyWindow [1; -1; 1]%R) 0%R = 0%R.
Proof.
  apply (@applyWindow_exact [1; -1; 1]%R). simpl. lia.
Defined.

(** On doubles a buffer of one sample becomes NaN: the argument of the
    cosine is 0 / 0.  (For a [Math.cos] that returns NaN for NaN.) *)
Example applyWindow_one_sample_binary64 (log10 : float -> float) :
  applyWindow (N := binary64 log10 (fun t => if is_nan t then nan else t)) [1%float]
  = [nan].
Proof. reflexivity. Qed.

(** ** Exact arithmetic: the energy of a band *)

Section ExactBands.

Local Open Scope R_scope.

Variable magnitudes : list R.










End ExactBands.


(** ** What [analyzeSpectral] reads of the buffer, in any arithmetic *)

Section SpectralPrefix.

Context {num : Type} {N : JSNumber num}.

Lemma slice_prefix {A} (l : list A) (zero size : num) (n : nat) :
  ToIntegerOrInfinity zero = Int 0 ->
  ToIntegerOrInfinity size = Int (Z.of_nat n) ->
  slice l zero size = firstn n l.
Proof.
  intros Hzero Hsize. unfold slice. rewrite Hzero, Hsize. cbn [relativeIndex].
  change (0 <? 0)%Z with false. cbn iota.
  destruct (Z.ltb_spec (Z.of_nat n) 0) as [Hneg|_]; [lia|].
  rewrite (Z.min_l 0) by lia. rewrite Z.sub_0_r. cbn [Z.to_nat skipn].
  destruct (Z.min_spec (Z.of_nat n) (Z.of_nat (List.length l))) as [[Hlt ->]|[Hge ->]];
    rewrite Nat2Z.id; [reflexivity|].
  rewrite firstn_all. symmetry. apply firstn_all2. lia.
Qed.

Variable fft : list num -> Outcome (list (num * num)).

(** X20: in any arithmetic in which 0 and the FFT size stand for the whole
    numbers 0 and n, [analyzeSpectral] reads the first n samples of the
    buffer only: on two buffers with the same first n samples it ends the
    same way, with the same result. *)
Theorem analyzeSpectral_prefix (audioData other : list num) (options : Options)
  (n : nat) :
  ToIntegerOrInfinity (of_Z 0) = Int 0 ->
  ToIntegerOrInfinity (default_to (fftSize options) (of_Z 2048)) = Int (Z.of_nat n) ->
  firstn n audioData = firstn n other ->
  analyzeSpectral fft audioData options = analyzeSpectral fft other options.
Proof.
  intros Hzero Hsize Hsame. unfold analyzeSpectral.
  rewrite (@slice_prefix _ audioData _ _ _ Hzero Hsize),
    (@slice_prefix _ other _ _ _ Hzero Hsize), Hsame.
  reflexivity.
Qed.

End SpectralPrefix.

Lemma analyzeSpectral_prefix_witness :
  analyzeSpectral (N := doubles) fft_of_silence silence_21 quiet_options
  = analyzeSpectral (N := doubles) fft_of_silence [0; 0; 0; 0; 1; 1]%float quiet_options.
Proof.
  apply (@analyzeSpectral_prefix float doubles fft_of_silence silence_21
           [0; 0; 0; 0; 1; 1]%float quiet_options 4); reflexivity.
Defined.

(** ** Exact arithmetic: the spectral centroid *)

Section ExactCentroid.

Local Open Scope R_scope.

Variables rate size : R.

Hypothesis rate_pos : 0 < rate.
Hypothesis size_pos : 0 < size.


Variable fft : list R -> Outcome (list (R * R)).




End ExactCentroid.



(** ** Doubles: the two computations of the rms *)

Section Binary64RMS.

Local Open Scope float_scope.

Lemma abs_square (x : float) : abs x * abs x = x * x.
Proof.
  apply Prim2SF_inj. rewrite !mul_spec, abs_spec.
  destruct (Prim2SF x) as [[|]|[|]| |[|] m e]; reflexivity.
Qed.

Variables log10 cos : float -> float.

Lemma analyzeAmplitude_loop_squares (window : list float) :
  forall prev st,
    acc_sumSquares (analyzeAmplitude_loop (N := binary64 log10 cos) prev window st)
    = fold_left (fun sumSquares x => sumSquares + x * x) window (acc_sumSquares st).
Proof.
  induction window as [|x rest IH]; intros prev st; [reflexivity|].
  cbn [analyzeAmplitude_loop fold_left]. rewrite IH.
  cbn [acc_sumSquares js_add js_mul Math_abs binary64]. now rewrite abs_square.
Qed.

(** X22: on doubles, [calculateRMS] and [analyzeAmplitude] compute the same
    rms for a window, bit for bit, whatever its samples: the [rms] of an
    entry of [detectPatterns] is the [rms] that [applyProfile] tests for the
    same window. *)
Theorem calculateRMS_is_rms (window : list float) (options : Options) :
  calculateRMS (N := binary64 log10 cos) window
  = rms (analyzeAmplitude (N := binary64 log10 cos) window options).
Proof.
  unfold calculateRMS, analyzeAmplitude. cbn [rms].
  rewrite analyzeAmplitude_loop_squares. reflexivity.
Qed.

End Binary64RMS.

(** ** The handlers, in any arithmetic *)

Section HandlerAnswers.

Context {num : Type} {N : JSNumber num}.

Variable fft : list num -> Outcome (list (num * num)).

Lemma invalid_audioData_spec (audioData : BodyValue (num := num)) :
  invalid_audioData audioData = negb (Array_isArray audioData).
Proof. destruct audioData as [| |[|]|]; reflexivity. Qed.

(** A handler that goes on after the check on [audioData] does not end
    with the answer 400. *)
Lemma answer_not_400 {A B} (work : M A) (data : A -> B) (w w' : World)
  (reply : Reply B) :
  try_catch (bind work (fun a => ret (res_json 200 (success (data a)))))
    (fun error => ret (next error)) w
  = Returns (reply, w') ->
  reply <> invalid_format.
Proof.
  unfold try_catch, bind, ret.
  destruct (work w) as [[a w1]|e|]; intros [= <- <-]; discriminate.
Qed.

(** X23: in any arithmetic, each of the four handlers of the controller,
    and the route for regions, answers 400 "Invalid audio data format",
    without calling the engine, exactly when the [audioData] of the body is
    not an array; whatever else the body holds. *)
Theorem handlers_reject_non_arrays (body : RequestBody) (w : World) :
  (Array_isArray (body_audioData body) = false
   <-> Controllers.analyzeAudio fft body w = Returns (invalid_format, w))
  /\ (Array_isArray (body_audioData body) = false
      <-> Controllers.detectRegions body w = Returns (invalid_format, w))
  /\ (Array_isArray (body_audioData body) = false
      <-> Controllers.detectPatterns body w = Returns (invalid_format, w))
  /\ (Array_isArray (body_audioData body) = false
      <-> Controllers.analyzeSpectral fft body w = Returns (invalid_format, w))
  /\ (Array_isArray (body_audioData body) = false
      <-> Routes.post_regions body w = Returns (invalid_format, w)).
Proof.
  unfold Controllers.analyzeAudio, Controllers.detectRegions,
    Controllers.detectPatterns, Controllers.analyzeSpectral, Routes.post_regions.
  cbn zeta. rewrite invalid_audioData_spec.
  destruct (Array_isArray (body_audioData body)); cbn [negb];
    repeat split; try reflexivity; try discriminate; intros Hrun; exfalso.
  - now apply answer_not_400 with (data := fun a => a) in Hrun.
  - destruct (body_profiles body) as [ps|].
    + change (try_catch
                (bind (detectRegions (Float32Array (body_audioData body))
                         (with_profiles (default_to (body_options body) no_options) ps))
                   (fun regions =>
                      ret (res_json 200
                             (success
                                ((fun regions =>
                                    {| data_regions := regions;
                                       data_count := Z.of_nat (List.length regions);
                                       data_profiles := map profile_id ps |})
                                   regions)))))
                (fun error => ret (next error)) w
              = Returns (invalid_format, w)) in Hrun.
      now apply answer_not_400 in Hrun.
    + discriminate.
  - now apply answer_not_400 with (data := fun a => a) in Hrun.
  - now apply answer_not_400 with (data := fun a => a) in Hrun.
  - now apply answer_not_400
      with (data := fun regions =>
                      {| data_regions := regions;
                         data_count := Z.of_nat (List.length regions);
                         data_profiles :=
                           map profile_id (default_to (body_profiles body) []) |})
      in Hrun.
Qed.

(** X24: in any arithmetic, when the spectral analysis of the samples of
    the body, rounded to single precision, throws [e], the handler
    [analyzeAudio] sends no answer and passes on the error of the engine,
    an [Error] with the message "Analysis failed: " and the message of [e];
    [errorHandler] answers it with status 500, "Internal Server Error" and
    that message, and with the stack trace in development only. *)
Theorem analyzeAudio_failure_answer (body : RequestBody) (elements : list num)
  (e : JSError) (w : World) (development : bool) (trace : option string) :
  body_audioData body = array elements ->
  analyzeSpectral fft (map fround elements) (default_to (body_options body) no_options)
  = Throws e ->
  let error := new_Error (String.append "Analysis failed: " (message e)) in
  (exists w', Controllers.analyzeAudio fft body w = Returns (next error, w'))
  /\ errorHandler development (thrown_error error trace)
     = {| response_status := 500;
          response_error := "Internal Server Error";
          response_message := String.append "Analysis failed: " (message e);
          response_stack := if development then trace else None |}.
Proof.
  intros Harray Hthrows. cbn zeta. split; [|reflexivity].
  unfold Controllers.analyzeAudio. cbn zeta. rewrite Harray.
  cbn [invalid_audioData ToBoolean Array_isArray negb orb Float32Array].
  unfold analyzeAudio, try_catch, bind, uuidv4, Date_toISOString, ret, lift, throw.
  rewrite Hthrows. eexists. reflexivity.
Qed.

(** X25: in any arithmetic, for a body with an array of samples and no
    [profiles], the handler [detectRegions] of the controller sends no
    answer: it passes on a TypeError, which [errorHandler] answers with
    status 500; the route for regions answers the same body with success,
    no region and a count of 0, and draws no identifier. *)
Theorem detectRegions_without_profiles (body : RequestBody) (elements : list num)
  (w : World) (development : bool) (trace : option string) :
  body_audioData body = array elements ->
  body_profiles body = None ->
  let error :=
    new_TypeError "Cannot read properties of undefined (reading 'length')" in
  (exists w', Controllers.detectRegions body w = Returns (next error, w'))
  /\ response_status (errorHandler development (thrown_error error trace)) = 500%Z
  /\ Routes.post_regions body w
     = Returns (res_json 200
                  (success {| data_regions := [];
                              data_count := 0;
                              data_profiles := [] |}), w).
Proof.
  intros Harray Hprofiles. cbn zeta.
  unfold Controllers.detectRegions, Routes.post_regions. cbn zeta.
  rewrite Harray, Hprofiles.
  cbn [invalid_audioData ToBoolean Array_isArray negb orb Float32Array default_to].
  split; [|split]; try reflexivity.
  eexists. reflexivity.
Qed.

(** X26: in any arithmetic, when the handler [detectRegions] answers with
    success, the status is 200, [count] is the number of regions in the
    answer, [profiles] lists the identifiers of the profiles of the body,
    every region names one of them, and the identifiers of the regions are
    the next identifiers of [uuidv4]. *)
Theorem detectRegions_answer (body : RequestBody) (status : Z)
  (answer : RegionsData) (w w' : World) :
  Controllers.detectRegions body w = Returns (res_json status (success answer), w') ->
  status = 200%Z
  /\ data_count answer = Z.of_nat (List.length (data_regions answer))
  /\ (exists profiles,
        body_profiles body = Some profiles
        /\ data_profiles answer = map profile_id profiles)
  /\ Forall (fun r => In (profile r) (data_profiles answer)) (data_regions answer)
  /\ map region_id (data_regions answer)
     = next_uuids w (List.length (data_regions answer)).
Proof.
  unfold Controllers.detectRegions. cbn zeta.
  destruct (invalid_audioData (body_audioData body)).
  - intros [= _ _]. 
  - destruct (body_profiles body) as [ps|]; [|discriminate].
    unfold try_catch, bind, ret, detectRegions.
    cbn [with_profiles profiles sampleRate default_to].
    destruct (detectRegions_loop _ _ ps [] w) as [[regions w1]|e|] eqn:Hrun;
      try discriminate.
    intros [= <- <- <-]. cbn [data_regions data_count data_profiles].
    split; [reflexivity|]. split; [reflexivity|]. split; [now exists ps|].
    pose proof (detectRegions_loop_profiles _ _ _ _ _ Hrun) as (new & Heq & Hnew).
    pose proof (detectRegions_loop_draws _ _ _ _ _ Hrun) as (new' & Heq' & Hids & _).
    cbn [app] in Heq, Heq'. subst new new'. split; [|exact Hids].
    apply Forall_impl with (2 := Hnew).
    intros r (p & j & Hin & _ & _ & _ & -> & _). now apply in_map.
Qed.

End HandlerAnswers.

(** A body with three samples and nothing else. *)
Definition three_samples : RequestBody (num := float) :=
  {| body_audioData := array [0; 0; 0]%float;
     body_profiles := None;
     body_options := None |}.

(** A body with 2.1 s of silence at 10 Hz and the "Quiet Section" profile. *)
Definition silence_request : RequestBody (num := float) :=
  {| body_audioData := array silence_21;
     body_profiles := Some [quiet_section];
     body_options := Some quiet_options |}.

Lemma analyzeAudio_failure_answer_witness :
  (exists w',
     Controllers.analyzeAudio (N := doubles) (fun _ => Throws fft_TypeError)
       three_samples world_0
     = Returns (next (new_Error "Analysis failed: Cannot read properties of undefined (reading '0')"),
                w'))
  /\ response_status
       (errorHandler false
          (thrown_error
             (new_Error "Analysis failed: Cannot read properties of undefined (reading '0')")
             None))
     = 500%Z.
Proof.
  destruct (@analyzeAudio_failure_answer float doubles (fun _ => Throws fft_TypeError)
              three_samples [0; 0; 0]%float fft_TypeError world_0 false None
              eq_refl eq_refl) as (Hnext & Hanswer).
  split; [exact Hnext|]. exact (f_equal response_status Hanswer).
Defined.

Lemma detectRegions_without_profiles_witness :
  Routes.post_regions (N := doubles) three_samples world_0
  = Returns (res_json 200
               (success {| data_regions := []; data_count := 0; data_profiles := [] |}),
             world_0).
Proof.
  apply (@detectRegions_without_profiles float doubles three_samples [0; 0; 0]%float
           world_0 false None eq_refl eq_refl).
Defined.

Lemma detectRegions_answer_witness :
  exists answer w',
    Controllers.detectRegions (N := doubles) silence_request world_0
    = Returns (res_json 200 (success answer), w')
    /\ data_count answer = Z.of_nat (List.length (data_regions answer)).
Proof.
  eexists _, _. split; [vm_compute; reflexivity|].
  eapply (@detectRegions_answer float doubles silence_request 200 _ world_0 _).
  vm_compute. reflexivity.
Defined.

(** ** Doubles: the confidence of a transition *)

(** X27: on doubles, every region [applyProfile] returns for a profile of
    type [transition] has confidence 0.5, whatever the window and the
    parameters of the profile. *)
Theorem transition_confidence_binary64 (log10 cos : float -> float)
  (audioData : list float) (profile : AudioProfile) (sampleRate : float)
  (regions : list AudioRegion) (w w' : World) :
  type_ profile = transition ->
  applyProfile (N := binary64 log10 cos) audioData profile sampleRate w
  = Returns (regions, w') ->
  Forall (fun r => confidence r = 0.5%float) regions.
Proof.
  intros Hty Hrun. apply applyProfile_emitted in Hrun.
  apply Forall_impl with (2 := Hrun).
  intros r (j & _ & _ & _ & _ & -> & _).
  unfold calculateConfidence. rewrite Hty. reflexivity.
Qed.

(** The "Transition" profile of [data/db.ts], as far as the engine reads it. *)
Definition transition_default : AudioProfile (num := float) :=
  {| profile_id := "transition-default"; type_ := transition;
     parameters := {| windowSize := Some 1%float; maxAmplitude := None;
                      minAmplitude := None; sensitivity := Some 0.5%float |} |}.

Lemma transition_confidence_binary64_witness :
  exists r1 r2 w',
    applyProfile (N := doubles) [1; -1; 1; -1; 1; -1]%float transition_default
      2%float world_0
    = Returns ([r1; r2], w')
    /\ Forall (fun r => confidence r = 0.5%float) [r1; r2].
Proof.
  eexists _, _, _. split; [vm_compute; reflexivity|].
  eapply (@transition_confidence_binary64 any_log10 any_cos
            [1; -1; 1; -1; 1; -1]%float transition_default 2%float _ world_0 _).
  - reflexivity.
  - vm_compute. reflexivity.
Defined.

(** ** Exact arithmetic: a request that is never answered *)

Section ExactHang.

Local Open Scope R_scope.

Variable fft : list R -> Outcome (list (R * R)).


End ExactHang.



(** ** The dominant frequencies, in any arithmetic *)

Section DominantEntries.

Context {num : Type} {N : JSNumber num}.

Lemma sort_insert_subset {A} (compareFn : A -> A -> num) (x y : A) (l : list A) :
  In x (sort_insert compareFn y l) -> x = y \/ In x l.
Proof.
  induction l as [|z l IH]; cbn [sort_insert].
  - intros [<-|[]]. now left.
  - destruct (js_ltb _ _); cbn [In].
    + intros [<-|Hin]; [right; now left|].
      destruct (IH Hin) as [->|Hl]; [now left | right; now right].
    + intros [<-|[<-|Hin]]; auto.
Qed.

Lemma sort_subset {A} (compareFn : A -> A -> num) (x : A) (l : list A) :
  In x (sort compareFn l) -> In x l.
Proof.
  induction l as [|y l IH]; cbn [sort fold_right]; [tauto|].
  intros Hin. apply sort_insert_subset in Hin as [->|Hin]; [now left|].
  right. now apply IH.
Qed.

Lemma skipn_subset {A} (n : nat) (l : list A) (x : A) :
  In x (skipn n l) -> In x l.
Proof.
  revert l. induction n as [|n IH]; intros [|z l]; cbn [skipn]; try tauto.
  intros Hin. right. now apply IH.
Qed.

Lemma slice_subset {A} (l : list A) (first last : num) (x : A) :
  In x (slice l first last) -> In x l.
Proof. unfold slice. intros Hin. now apply firstn_subset, skipn_subset in Hin. Qed.

Variable magnitudes : list num.
Variables rate size threshold_ : num.

(** An entry made from bin [i]: its frequency and magnitude are those of
    the bin, the bin is counted before half the length, and its magnitude
    is above the threshold. *)
Definition entry_of_bin (entry : FrequencyEntry) : Prop :=
  exists i : nat,
    nth_error magnitudes i = Some (magnitude entry)
    /\ frequency entry = js_div (js_mul (of_Z (Z.of_nat i)) rate) size
    /\ js_ltb (of_Z (Z.of_nat i)) (js_div (length_of magnitudes) (of_Z 2)) = true
    /\ js_ltb threshold_ (magnitude entry) = true.

Lemma findDominantFrequencies_loop_entries (rest : list num) :
  forall (pre : list num) (frequencies : list FrequencyEntry),
    magnitudes = pre ++ rest ->
    Forall entry_of_bin frequencies ->
    Forall entry_of_bin
      (findDominantFrequencies_loop magnitudes rate size threshold_
         (Z.of_nat (List.length pre)) rest frequencies).
Proof.
  induction rest as [|m rest IH]; intros pre frequencies Hsplit Hall;
    cbn [findDominantFrequencies_loop]; [exact Hall|].
  destruct (js_ltb (of_Z (Z.of_nat (List.length pre))) _) eqn:Hhalf; [|exact Hall].
  replace (Z.of_nat (List.length pre) + 1)%Z
    with (Z.of_nat (List.length (pre ++ [m])))
    by (rewrite length_app; simpl; lia).
  apply IH; [now rewrite <- app_assoc|].
  destruct (js_ltb threshold_ m) eqn:Hm; [|exact Hall].
  apply Forall_app. split; [exact Hall|]. constructor; [|constructor].
  exists (List.length pre). cbn [magnitude frequency]. repeat split; auto.
  rewrite Hsplit, nth_error_app2 by lia. now rewrite Nat.sub_diag.
Qed.

End DominantEntries.

Section DominantFrequencies.

Context {num : Type} {N : JSNumber num}.

(** X29: in any arithmetic, doubles included, every entry
    [findDominantFrequencies] returns is made from a bin i of the spectrum:
    its magnitude is that of the bin, its frequency is i times the sample
    rate over the FFT size, i is below half the length of the spectrum,
    and the magnitude is above a tenth of [Math.max] of the spectrum. *)
Theorem dominantFrequencies_entries (magnitudes : list num) (sampleRate fftSize : num) :
  Forall (fun entry =>
            exists i : nat,
              nth_error magnitudes i = Some (magnitude entry)
              /\ frequency entry
                 = js_div (js_mul (of_Z (Z.of_nat i)) sampleRate) fftSize
              /\ js_ltb (of_Z (Z.of_nat i)) (js_div (length_of magnitudes) (of_Z 2))
                 = true
              /\ js_ltb (js_mul (Math_max_spread magnitudes) (decimal 1 10))
                   (magnitude entry)
                 = true)
         (findDominantFrequencies magnitudes sampleRate fftSize).
Proof.
  unfold findDominantFrequencies.
  pose proof (@findDominantFrequencies_loop_entries _ _ magnitudes sampleRate fftSize
                (js_mul (Math_max_spread magnitudes) (decimal 1 10))
                magnitudes [] [] eq_refl (Forall_nil _)) as Hall.
  cbn [List.length Z.of_nat] in Hall.
  apply Forall_forall. intros entry Hin.
  apply slice_subset, sort_subset in Hin.
  rewrite Forall_forall in Hall. exact (Hall entry Hin).
Qed.

End DominantFrequencies.

(** ** Exact arithmetic: the patterns of a steady signal *)

Section ExactSteady.

Local Open Scope R_scope.






Variable c : R.
Variable n : nat.
Variables rate threshold_ : R.
Variable size : Z.

Hypothesis size_pos : (1 <= size)%Z.



Hypothesis threshold_nonneg : 0 <= threshold_.


End ExactSteady.

Section ExactSteadyPatterns.

Local Open Scope R_scope.


End ExactSteadyPatterns.

